(** * Account verification (vk-io, packages/authorization)

    A shallow embedding of
    [packages/authorization/src/providers/account-verification.ts]: the
    class [AccountVerification], its loop [run] and the four form
    handlers, together with the statements the specification makes about
    them.

    JavaScript strings are sequences of UTF-16 code units; the mutable
    instance fields, the HTTP session and the callback service are threaded
    through a state-and-exception monad that also records every call made
    to a collaborator. *)

From Stdlib Require Import ZArith NArith List Bool Lia Ascii String DecimalString.
From stdpp Require Import base option list gmap.

Import ListNotations.
Local Open Scope Z_scope.

(* ===================================================================== *)
(** ** JavaScript strings *)
(* ===================================================================== *)

Module JS.

(** A string is its sequence of UTF-16 code units. *)
Definition jsstring := list N.

(** A literal whose characters are all below U+0100. *)
Definition js (s : string) : jsstring :=
  map N_of_ascii (list_ascii_of_string s).

(** [s.length] *)
Definition length (s : jsstring) : Z := Z.of_nat (List.length s).

(** [s.startsWith(p)] *)
Fixpoint startsWith (s p : jsstring) : bool :=
  match p, s with
  | [], _ => true
  | _ :: _, [] => false
  | c :: p', d :: s' => N.eqb c d && startsWith s' p'
  end.

(** [s.includes(sub)] *)
Fixpoint includes (s sub : jsstring) : bool :=
  startsWith s sub ||
  match s with
  | [] => false
  | _ :: s' => includes s' sub
  end.

(** [s.substring(1)] *)
Definition substring1 (s : jsstring) : jsstring := List.tl s.

(** WhiteSpace and LineTerminator code units, the ones [trim] strips. *)
Definition isWhiteSpace (c : N) : bool :=
  ((9 <=? c) && (c <=? 13) || (c =? 32) || (c =? 160) || (c =? 5760)
   || (8192 <=? c) && (c <=? 8202) || (c =? 8232) || (c =? 8233)
   || (c =? 8239) || (c =? 8287) || (c =? 12288) || (c =? 65279))%N.

Fixpoint trimStart (s : jsstring) : jsstring :=
  match s with
  | c :: s' => if isWhiteSpace c then trimStart s' else s
  | [] => []
  end.

(** [s.trim()] *)
Definition trim (s : jsstring) : jsstring :=
  rev (trimStart (rev (trimStart s))).

Definition plus : N := 43.
Definition zero : N := 48.

(** [s.replace(/^(\+|00)/, '')] *)
Definition replaceLeadingPlusOr00 (s : jsstring) : jsstring :=
  match s with
  | c :: s' =>
      if N.eqb c plus then s'
      else match s' with
           | d :: s'' => if N.eqb c zero && N.eqb d zero then s'' else s
           | [] => s
           end
  | [] => []
  end.

(** [s.replace('+', '')]: a string pattern replaces its first occurrence
    only. *)
Fixpoint replaceFirstPlus (s : jsstring) : jsstring :=
  match s with
  | c :: s' => if N.eqb c plus then s' else c :: replaceFirstPlus s'
  | [] => []
  end.

(** [s.slice(start, end)], with the relative-index rule of the language:
    a negative index counts from the end, every index is clamped to
    [0, length]. *)
Definition relativeIndex (len i : Z) : Z :=
  if i <? 0 then Z.max (len + i) 0 else Z.min i len.

Definition slice (s : jsstring) (start end_ : Z) : jsstring :=
  let len := length s in
  let from := relativeIndex len start in
  let to := relativeIndex len end_ in
  firstn (Z.to_nat (Z.max (to - from) 0)) (skipn (Z.to_nat from) s).

End JS.

Import JS.

(* ===================================================================== *)
(** ** Errors *)
(* ===================================================================== *)

Inductive AuthErrorCode :=
| INVALID_PHONE_NUMBER
| AUTHORIZATION_FAILED
| FAILED_PASSED_CAPTCHA
| FAILED_PASSED_TWO_FACTOR.

(** [new AuthorizationError({ message, code, pageHtml })] *)
Record AuthorizationError := {
  message : jsstring;
  code : AuthErrorCode;
  pageHtml : option jsstring
}.

(** Whatever can be thrown: an [AuthorizationError] made here, or an error
    of a collaborator (a transport failure, a [TypeError] of [new URL], a
    rejection of the callback service), known by its text only. *)
Inductive jserror :=
| AuthError (e : AuthorizationError)
| ForeignError (what : jsstring).

(** [ACTION_AUTH_CODE], [ACTION_SECURITY_CODE], [ACTION_VALIDATE],
    [ACTION_CAPTCHA], [TWO_FACTOR_ATTEMPTS] *)
Definition ACTION_AUTH_CODE : jsstring := js "act=authcheck".
Definition ACTION_SECURITY_CODE : jsstring := js "act=security".
Definition ACTION_VALIDATE : jsstring := js "act=validate".
Definition ACTION_CAPTCHA : jsstring := js "act=captcha".
Definition TWO_FACTOR_ATTEMPTS : N := 3.

(* ===================================================================== *)
(** ** Collaborators *)
(* ===================================================================== *)

(** The fields of a form, [Record<string, string>]. *)
Abbreviation Fields := (gmap (list N) (list N)).

(** [{ action, fields }], what [parseFormField] returns; [action] is the
    form's attribute and may be missing. *)
Record FormField := {
  action : option jsstring;
  fields : Fields
}.

(** What the module imports and does not define: language built-ins
    ([Number], [String], [URL], [URLSearchParams]), cheerio, the helpers
    [parseFormField] and [getFullURL], and the constant [CALLBACK_BLANK]. *)
Class Platform := {
  (** the number type, [Number(s)] and [String(n)] *)
  JsNumber : Type;
  Number : jsstring -> JsNumber;
  String_ : JsNumber -> jsstring;
  (** [CALLBACK_BLANK] of ../constants *)
  CALLBACK_BLANK : jsstring;
  (** [new URL(u).hash] *)
  URL_hash : jsstring -> jsstring;
  (** [new URLSearchParams(s)], as its list of entries *)
  URLSearchParams : jsstring -> list (jsstring * jsstring);
  (** [$], a markup loaded by [cheerioLoad] *)
  Cheerio : Type;
  (** [$.html()] *)
  cheerio_html : Cheerio -> jsstring;
  (** [$('.field_prefix').first().text()] and [.last().text()] *)
  field_prefix_first_text : Cheerio -> jsstring;
  field_prefix_last_text : Cheerio -> jsstring;
  (** [$('#activation_wrap a').attr('href')] *)
  activation_wrap_href : Cheerio -> option jsstring;
  (** [$('.captcha_img').attr('src')] *)
  captcha_img_src : Cheerio -> option jsstring;
  (** [parseFormField($)] of ../helpers *)
  parseFormField : Cheerio -> FormField;
  (** [getFullURL(action, response)] of ../helpers; [new URL] may throw *)
  getFullURL : option jsstring -> jsstring -> jserror + jsstring;
  (** [url.searchParams.set(k, v)], on the serialized URL *)
  searchParams_set : jsstring -> jsstring -> jsstring -> jsstring
}.

(** [params.has(k)] and [params.get(k)]: the first entry named [k]. *)
Definition params_get (params : list (jsstring * jsstring)) (k : jsstring)
  : option jsstring :=
  match List.find (fun kv => bool_decide (fst kv = k)) params with
  | Some kv => Some (snd kv)
  | None => None
  end.

Definition params_has (params : list (jsstring * jsstring)) (k : jsstring)
  : bool :=
  match params_get params k with Some _ => true | None => false end.

Inductive Method := GET | POST.

(** A handle of the callback service, [ICallbackServiceValidate]; only its
    [reject] is used here. *)
Definition Handle := N.

Inductive CaptchaType := ACCOUNT_VERIFICATION.

(** The payload of [processingCaptcha]. *)
Record CaptchaPayload := {
  type_ : CaptchaType;
  sid : option jsstring;
  src : option jsstring
}.

(** How a call ends: it returns a value or throws. *)
Inductive Completion (A : Type) :=
| Normal (a : A)
| Throw (e : jserror).
Arguments Normal {A} a.
Arguments Throw {A} e.

Section Model.

Context {P : Platform}.

(** A response of [fetch]: its final URL, and what [cheerioLoad(await
    response.text())] gives (reading the body may fail). *)
Record Response := {
  url : jsstring;
  text : jserror + Cheerio
}.

(** The session and the callback service: each call may change the world
    and either returns or throws. *)
Class Services := {
  World : Type;
  fetchCookie :
    World -> Method -> jsstring -> option Fields -> World * (jserror + Response);
  processingTwoFactor :
    World -> World * (jserror + (jsstring * Handle));
  processingCaptcha :
    World -> CaptchaPayload -> World * (jserror + (jsstring * Handle));
  validate_reject :
    World -> Handle -> jserror -> World
}.

Context {S : Services}.

(** Every call to a collaborator, in the order made. *)
Inductive Event :=
| EvFetch (m : Method) (u : jsstring) (body : option Fields)
          (r : jserror + Response)
| EvText (r : jserror + Cheerio)
| EvParseFormField
| EvProcessingTwoFactor (r : jserror + (jsstring * Handle))
| EvProcessingCaptcha (p : CaptchaPayload) (r : jserror + (jsstring * Handle))
| EvReject (h : Handle) (e : jserror).

(** [phone?: string | number] *)
Inductive PhoneValue :=
| PhoneString (s : jsstring)
| PhoneNumber (n : JsNumber).

(** [IAccountVerificationOptions] (the agent is only handed to fetch). *)
Record Options := {
  login : option jsstring;
  phone : option PhoneValue
}.

(** The instance fields of [AccountVerification]. *)
Record AccountVerification := {
  options : Options;
  captchaValidate : option Handle;
  captchaAttempts : N;
  twoFactorValidate : option Handle;
  twoFactorAttempts : N
}.

(** [new AccountVerification(vk)] *)
Definition constructor (o : Options) : AccountVerification :=
  {| options := o;
     captchaValidate := None; captchaAttempts := 0;
     twoFactorValidate := None; twoFactorAttempts := 0 |}.

(** ** The monad: state, exceptions, trace *)

Record State := {
  self : AccountVerification;
  world : World;
  trace : list Event
}.

Definition M (A : Type) := State -> Completion A * State.

Definition ret {A} (a : A) : M A := fun st => (Normal a, st).
Definition throw {A} (e : jserror) : M A := fun st => (Throw e, st).
Definition bind {A B} (m : M A) (k : A -> M B) : M B :=
  fun st =>
    match m st with
    | (Normal a, st') => k a st'
    | (Throw e, st') => (Throw e, st')
    end.
(** [try { m } catch (error) { h error }] *)
Definition try_catch {A} (m : M A) (h : jserror -> M A) : M A :=
  fun st =>
    match m st with
    | (Normal a, st') => (Normal a, st')
    | (Throw e, st') => h e st'
    end.

Notation "x <- m ;; k" := (bind m (fun x => k))
  (at level 63, m at next level, right associativity, only parsing).
Notation "m ;;; k" := (bind m (fun _ => k))
  (at level 63, right associativity, only parsing).

Definition this : M AccountVerification := fun st => (Normal (self st), st).
Definition set_this (f : AccountVerification -> AccountVerification) : M unit :=
  fun st =>
    (Normal tt, {| self := f (self st); world := world st; trace := trace st |}).
Definition log (e : Event) : M unit :=
  fun st =>
    (Normal tt,
     {| self := self st; world := world st; trace := trace st ++ [e] |}).
Definition lift {A} (r : jserror + A) : M A :=
  match r with inl e => throw e | inr a => ret a end.
(** A call to a service: the world moves, the call is recorded, its
    outcome returned or thrown. *)
Definition call {A} (f : World -> World * (jserror + A))
    (ev : jserror + A -> Event) : M A :=
  fun st =>
    let '(w, r) := f (world st) in
    lift r {| self := self st; world := w; trace := trace st ++ [ev r] |}.

(** [this.fetch(url, { method, body })] *)
Definition fetch (m : Method) (u : jsstring) (body : option Fields)
  : M Response :=
  call (fun w => fetchCookie w m u body) (EvFetch m u body).

(** [validate.reject(error)] *)
Definition reject (h : Handle) (e : jserror) : M unit :=
  fun st =>
    (Normal tt,
     {| self := self st;
        world := validate_reject (world st) h e;
        trace := trace st ++ [EvReject h e] |}).

(** [cheerioLoad(await response.text())] *)
Definition load (response : Response) : M Cheerio :=
  log (EvText (text response)) ;;; lift (text response).

(** [parseFormField($)] *)
Definition parse_form (doc : Cheerio) : M FormField :=
  log EvParseFormField ;;; ret (parseFormField doc).

(* ===================================================================== *)
(** ** The class *)
(* ===================================================================== *)

Definition with_captchaValidate (v : option Handle)
    (a : AccountVerification) : AccountVerification :=
  {| options := options a;
     captchaValidate := v; captchaAttempts := captchaAttempts a;
     twoFactorValidate := twoFactorValidate a;
     twoFactorAttempts := twoFactorAttempts a |}.

Definition bump_captchaAttempts (a : AccountVerification)
  : AccountVerification :=
  {| options := options a;
     captchaValidate := captchaValidate a;
     captchaAttempts := (captchaAttempts a + 1)%N;
     twoFactorValidate := twoFactorValidate a;
     twoFactorAttempts := twoFactorAttempts a |}.

Definition bump_twoFactorAttempts (a : AccountVerification)
  : AccountVerification :=
  {| options := options a;
     captchaValidate := captchaValidate a;
     captchaAttempts := captchaAttempts a;
     twoFactorValidate := twoFactorValidate a;
     twoFactorAttempts := (twoFactorAttempts a + 1)%N |}.

(** [this.captchaValidate = v], [this.captchaAttempts += 1],
    [this.twoFactorAttempts += 1] *)
Definition set_captchaValidate (v : option Handle) : M unit :=
  set_this (with_captchaValidate v).
Definition incr_captchaAttempts : M unit := set_this bump_captchaAttempts.
Definition incr_twoFactorAttempts : M unit := set_this bump_twoFactorAttempts.

Definition mkError (msg : string) (c : AuthErrorCode) (html : option jsstring)
  : jserror :=
  AuthError {| message := js msg; code := c; pageHtml := html |}.

(** [processTwoFactorForm(response, $)].  The handle [validate] of the
    callback service stays in a local constant: nothing assigns
    [this.twoFactorValidate]. *)
Definition processTwoFactorForm (response : Response) (doc : Cheerio)
  : M Response :=
  me <- this ;;
  match twoFactorValidate me with
  | Some v =>
      reject v (mkError "Incorrect two-factor code" FAILED_PASSED_TWO_FACTOR
                  (Some (cheerio_html doc))) ;;;
      incr_twoFactorAttempts
  | None => ret tt
  end ;;;
  me <- this ;;
  if (TWO_FACTOR_ATTEMPTS <=? twoFactorAttempts me)%N then
    throw (mkError "Failed passed two-factor authentication"
             FAILED_PASSED_TWO_FACTOR None)
  else
    form <- parse_form doc ;;
    answer <- call processingTwoFactor EvProcessingTwoFactor ;;
    let '(code, validate) := answer in
    let fields := <[js "code" := code]> (fields form) in
    try_catch
      (u <- lift (getFullURL (action form) (url response)) ;;
       fetch POST u (Some fields))
      (fun error => reject validate error ;;; throw error).

(** The first lines of [processSecurityForm]: which option is the number. *)
Definition security_number (o : Options) : jserror + PhoneValue :=
  match phone o with
  | Some p => inr p
  | None =>
      match login o with
      | Some l =>
          if negb (includes l (js "@")) then inr (PhoneString l)
          else inl (mkError "Missing phone number in the phone or login field"
                      INVALID_PHONE_NUMBER None)
      | None =>
          inl (mkError "Missing phone number in the phone or login field"
                 INVALID_PHONE_NUMBER None)
      end
  end.

(** [if (typeof number === 'string') { ... }  number = String(number)] *)
Definition normalize_number (number : PhoneValue) : jsstring :=
  match number with
  | PhoneString s => replaceLeadingPlusOr00 (trim s)
  | PhoneNumber n => String_ n
  end.

(** [number.slice(prefix, number.length - postfix)], with [prefix] and
    [postfix] read off the two [.field_prefix] labels. *)
Definition security_code (number : jsstring) (doc : Cheerio) : jsstring :=
  let prefix :=
    length (replaceFirstPlus (trim (field_prefix_first_text doc))) in
  let postfix := length (trim (field_prefix_last_text doc)) in
  slice number prefix (length number - postfix).

(** [processSecurityForm(response, $)] *)
Definition processSecurityForm (response : Response) (doc : Cheerio)
  : M Response :=
  me <- this ;;
  number <- lift (security_number (options me)) ;;
  let number := normalize_number number in
  form <- parse_form doc ;;
  let fields := <[js "code" := security_code number doc]> (fields form) in
  u <- lift (getFullURL (action form) (url response)) ;;
  rewResponse <- fetch POST u (Some fields) ;;
  if includes (url rewResponse) ACTION_SECURITY_CODE then
    throw (mkError "Invalid phone number" INVALID_PHONE_NUMBER None)
  else ret rewResponse.

(** [processValidateForm(response, $)] *)
Definition processValidateForm (response : Response) (doc : Cheerio)
  : M Response :=
  u <- lift (getFullURL (activation_wrap_href doc) (url response)) ;;
  fetch GET u None.

(** [processCaptchaForm(response, $)] *)
Definition processCaptchaForm (response : Response) (doc : Cheerio)
  : M Response :=
  me <- this ;;
  match captchaValidate me with
  | Some v =>
      reject v (mkError "Incorrect captcha code" FAILED_PASSED_CAPTCHA None) ;;;
      set_captchaValidate None ;;;
      incr_captchaAttempts
  | None => ret tt
  end ;;;
  form <- parse_form doc ;;
  let payload :=
    {| type_ := ACCOUNT_VERIFICATION;
       sid := fields form !! js "captcha_sid";
       src := captcha_img_src doc |} in
  answer <- call (fun w => processingCaptcha w payload)
              (EvProcessingCaptcha payload) ;;
  let '(key, validate) := answer in
  set_captchaValidate (Some validate) ;;;
  let fields := <[js "captcha_key" := key]> (fields form) in
  u <- lift (getFullURL (action form) (url response)) ;;
  let u := searchParams_set u (js "utf8") (js "1") in
  fetch POST u (Some fields).

(** What [run] resolves to. *)
Record AuthResult := {
  user : option JsNumber;
  token : option jsstring
}.

(** One turn of the [while] loop either returns or goes on with the next
    response. *)
Inductive Turn :=
| Return (r : AuthResult)
| Continue (response : Response).

(** The branch of [run] under [url.includes(CALLBACK_BLANK)]. *)
Definition blank (response : Response) : M AuthResult :=
  let hash := URL_hash (url response) in
  let hash := if startsWith hash (js "#") then substring1 hash else hash in
  let params := URLSearchParams hash in
  if params_has params (js "error") then
    let description :=
      match params_get params (js "error_description") with
      | Some (c :: d) => c :: d
      | _ => js "Unknown error"
      end in
    throw (AuthError {| message := js "Failed passed grant access: " ++ description;
                        code := AUTHORIZATION_FAILED;
                        pageHtml := None |})
  else
    let user := params_get params (js "user_id") in
    ret {| user := match user with
                   | Some u => Some (Number u)
                   | None => None
                   end;
           token := params_get params (js "access_token") |}.

(** The body of the [while] loop of [run]. *)
Definition turn (response : Response) : M Turn :=
  let url := url response in
  if includes url CALLBACK_BLANK then
    r <- blank response ;; ret (Return r)
  else
    doc <- load response ;;
    if includes url ACTION_AUTH_CODE then
      r <- processTwoFactorForm response doc ;; ret (Continue r)
    else if includes url ACTION_SECURITY_CODE then
      r <- processSecurityForm response doc ;; ret (Continue r)
    else if includes url ACTION_VALIDATE then
      r <- processValidateForm response doc ;; ret (Continue r)
    else if includes url ACTION_CAPTCHA then
      r <- processCaptchaForm response doc ;; ret (Continue r)
    else
      throw (mkError "Account verification failed" AUTHORIZATION_FAILED None).

(** How a run stands after a number of turns: it has returned, it has
    thrown, or the loop is still turning on some response. *)
Inductive Outcome :=
| Returned (r : AuthResult)
| Raised (e : jserror)
| StillRunning (response : Response).

(** [while (isProcessed) { ... }], at most [fuel] turns of it. *)
Fixpoint loop (fuel : nat) (response : Response) (st : State)
  : Outcome * State :=
  match fuel with
  | O => (StillRunning response, st)
  | Datatypes.S fuel' =>
      match turn response st with
      | (Throw e, st') => (Raised e, st')
      | (Normal (Return r), st') => (Returned r, st')
      | (Normal (Continue response'), st') => loop fuel' response' st'
      end
  end.

(** [run(redirectUri)] *)
Definition run (fuel : nat) (redirectUri : jsstring) (st : State)
  : Outcome * State :=
  match fetch GET redirectUri None st with
  | (Throw e, st') => (Raised e, st')
  | (Normal response, st') => loop fuel response st'
  end.

(** The state in which [run] is called on a fresh instance. *)
Definition initial (o : Options) (w : World) : State :=
  {| self := constructor o; world := w; trace := [] |}.

End Model.

Notation "x <- m ;; k" := (bind m (fun x => k))
  (at level 63, m at next level, right associativity, only parsing).
Notation "m ;;; k" := (bind m (fun _ => k))
  (at level 63, right associativity, only parsing).

(* ===================================================================== *)
(** ** What a trace says about validation handles *)
(* ===================================================================== *)

Section Handles.

Context {P : Platform} {S : Services}.

Definition remove_handle (h : Handle) (hs : list Handle) : list Handle :=
  List.filter (fun h' => negb (N.eqb h h')) hs.

(** The handles handed out by the callback service and not rejected since,
    oldest first. *)
Definition outstanding_step (hs : list Handle) (ev : Event) : list Handle :=
  match ev with
  | EvProcessingTwoFactor (inr (_, h)) => hs ++ [h]
  | EvProcessingCaptcha _ (inr (_, h)) => hs ++ [h]
  | EvReject h _ => remove_handle h hs
  | _ => hs
  end.

Definition outstanding (t : list Event) : list Handle :=
  fold_left outstanding_step t [].

(** The same, for the two-factor handles alone. *)
Definition outstanding_twoFactor_step (hs : list Handle) (ev : Event)
  : list Handle :=
  match ev with
  | EvProcessingTwoFactor (inr (_, h)) => hs ++ [h]
  | EvReject h _ => remove_handle h hs
  | _ => hs
  end.

Definition outstanding_twoFactor (t : list Event) : list Handle :=
  fold_left outstanding_twoFactor_step t [].

(** The rejections of a trace. *)
Definition rejections (t : list Event) : list (Handle * jserror) :=
  flat_map (fun ev => match ev with EvReject h e => [(h, e)] | _ => [] end) t.

(** The codes and answers asked of the callback service. *)
Definition requests (t : list Event) : nat :=
  List.length
    (List.filter (fun ev => match ev with
                            | EvProcessingTwoFactor _
                            | EvProcessingCaptcha _ _ => true
                            | _ => false
                            end) t).

(** The state after some calls: the world has moved to [w] and the calls
    [evs] have been added to the trace. *)
Definition after (st : State) (w : World) (evs : list Event) : State :=
  {| self := self st; world := w; trace := trace st ++ evs |}.

(** The parameters [run] reads on the blank page. *)
Definition blank_params (response : Response) : list (jsstring * jsstring) :=
  let hash := URL_hash (url response) in
  URLSearchParams (if startsWith hash (js "#") then substring1 hash else hash).

(** The run is over: it has returned or thrown. *)
Definition finished (o : Outcome) : bool :=
  match o with
  | Returned _ | Raised _ => true
  | StillRunning _ => false
  end.

(** A response that [run] hands to [processCaptchaForm], its markup
    loaded. *)
Definition is_captcha_page (r : Response) : bool :=
  negb (includes (url r) CALLBACK_BLANK)
  && negb (includes (url r) ACTION_AUTH_CODE)
  && negb (includes (url r) ACTION_SECURITY_CODE)
  && negb (includes (url r) ACTION_VALIDATE)
  && includes (url r) ACTION_CAPTCHA
  && match text r with inr _ => true | inl _ => false end.

(** 1 when a captcha handle is stored, 0 when none is. *)
Definition pending_now (st : State) : N :=
  match captchaValidate (self st) with Some _ => 1%N | None => 0%N end.

(** The error a stale captcha handle is rejected with. *)
Definition stale_captcha : jserror :=
  AuthError {| message := js "Incorrect captcha code";
               code := FAILED_PASSED_CAPTCHA;
               pageHtml := None |}.

(** What the callback service is asked about a captcha page. *)
Definition captcha_payload (doc : Cheerio) : CaptchaPayload :=
  {| type_ := ACCOUNT_VERIFICATION;
     sid := fields (parseFormField doc) !! js "captcha_sid";
     src := captcha_img_src doc |}.

(** The state of [processCaptchaForm] once it is past its first [if]. *)
Definition captcha_entered (st : State) : State :=
  match captchaValidate (self st) with
  | Some h =>
      {| self := bump_captchaAttempts (with_captchaValidate None (self st));
         world := validate_reject (world st) h stale_captcha;
         trace := trace st ++ [EvReject h stale_captcha] |}
  | None => st
  end.

(** A computation that leaves a property of the instance fields as it
    finds it. *)
Definition keeps {A} (Q : AccountVerification -> Prop) (m : M A) : Prop :=
  forall st, Q (self st) -> Q (self (snd (m st))).

(** Nothing is stored for the two-factor form and nothing counted. *)
Definition twoFactor_idle (a : AccountVerification) : Prop :=
  twoFactorValidate a = None /\ twoFactorAttempts a = 0%N.

End Handles.

(* ===================================================================== *)
(** ** More to say about states and traces *)
(* ===================================================================== *)

Section Traces.

Context {P : Platform} {S : Services}.

(** [s.trimEnd()] *)
Definition trimEnd (s : jsstring) : jsstring := rev (trimStart (rev s)).

(** A computation all of whose calls satisfy [Pev]. *)
Definition emits {A} (Pev : Event -> Prop) (m : M A) : Prop :=
  forall st, exists evs,
    trace (snd (m st)) = trace st ++ evs /\ Forall Pev evs.

(** A computation that leaves a property of the state as it finds it. *)
Definition preserves {A} (I : State -> Prop) (m : M A) : Prop :=
  forall st, I st -> I (snd (m st)).

(** A call that is no traffic with the callback service. *)
Definition is_silent (ev : Event) : Prop :=
  match ev with
  | EvFetch _ _ _ _ | EvText _ | EvParseFormField => True
  | _ => False
  end.

(** A call that is anything but an answer to a captcha. *)
Definition no_captcha_answer (ev : Event) : Prop :=
  match ev with
  | EvProcessingCaptcha _ (inr _) => False
  | _ => True
  end.

(** The captchas the callback service has answered. *)
Definition captcha_answers (t : list Event) : nat :=
  List.length
    (List.filter (fun ev => match ev with
                            | EvProcessingCaptcha _ (inr _) => true
                            | _ => false
                            end) t).

(** The handles the callback service has handed out, oldest first. *)
Definition issued (t : list Event) : list Handle :=
  flat_map (fun ev => match ev with
                      | EvProcessingTwoFactor (inr (_, h))
                      | EvProcessingCaptcha _ (inr (_, h)) => [h]
                      | _ => []
                      end) t.

(** Every rejection of [t] is of a handle handed out before it, in [t] or
    among [seen]. *)
Fixpoint rejects_issued (seen : list Handle) (t : list Event) : bool :=
  match t with
  | [] => true
  | ev :: t' =>
      match ev with
      | EvReject h _ => existsb (N.eqb h) seen && rejects_issued seen t'
      | EvProcessingTwoFactor (inr (_, h))
      | EvProcessingCaptcha _ (inr (_, h)) => rejects_issued (h :: seen) t'
      | _ => rejects_issued seen t'
      end
  end.

(** The response has come out of a request of the trace. *)
Definition fetched_in (t : list Event) (r : Response) : Prop :=
  exists m u b, In (EvFetch m u b (inr r)) t.

(** The count of rejected captchas and the handle stored add up to the
    captchas answered. *)
Definition captcha_accounted (st : State) : Prop :=
  (captchaAttempts (self st) + pending_now st)%N
  = N.of_nat (captcha_answers (trace st)).

(** Whatever is rejected or stored has been handed out by the callback
    service. *)
Definition handles_known (st : State) : Prop :=
  rejects_issued [] (trace st) = true /\
  (forall h, captchaValidate (self st) = Some h -> In h (issued (trace st))) /\
  twoFactorValidate (self st) = None.

(** The errors [processTwoFactorForm] makes. *)
Definition stale_twoFactor (doc : Cheerio) : jserror :=
  AuthError {| message := js "Incorrect two-factor code";
               code := FAILED_PASSED_TWO_FACTOR;
               pageHtml := Some (cheerio_html doc) |}.

Definition twoFactor_limit : jserror :=
  AuthError {| message := js "Failed passed two-factor authentication";
               code := FAILED_PASSED_TWO_FACTOR;
               pageHtml := None |}.

(** The state of [processTwoFactorForm] once it is past its first [if]. *)
Definition twoFactor_entered (doc : Cheerio) (st : State) : State :=
  match twoFactorValidate (self st) with
  | Some h =>
      {| self := bump_twoFactorAttempts (self st);
         world := validate_reject (world st) h (stale_twoFactor doc);
         trace := trace st ++ [EvReject h (stale_twoFactor doc)] |}
  | None => st
  end.

(** The part of [processTwoFactorForm] after its two [if]s: the form is
    parsed, the code asked for and posted. *)
Definition twoFactor_ask (response : Response) (doc : Cheerio) : M Response :=
  form <- parse_form doc ;;
  answer <- call processingTwoFactor EvProcessingTwoFactor ;;
  let '(code, validate) := answer in
  let fields := <[js "code" := code]> (fields form) in
  try_catch
    (u <- lift (getFullURL (action form) (url response)) ;;
     fetch POST u (Some fields))
    (fun error => reject validate error ;;; throw error).

End Traces.

(* ===================================================================== *)
(** ** The collect groups (vk-io, collect/collect.ts) *)
(* ===================================================================== *)

Module Collect.

(** [s.split(sep)], for a separator of one code unit. *)
Fixpoint split (sep : N) (s : jsstring) : list jsstring :=
  match s with
  | [] => [[]]
  | c :: s' =>
      match split sep s' with
      | piece :: pieces =>
          if N.eqb c sep then [] :: piece :: pieces
          else (c :: piece) :: pieces
      | [] => [[c]]
      end
  end.

Definition dot : N := 46.

(** An entry [[method, limit, max]] of LIMITS_METHODS.  The function the
    constructor stores for it captures these three (and the api) and hands
    them to [new CollectStream]; it is known here by what it captures. *)
Record Limits := {
  method : jsstring;
  limit : N;
  max : N
}.

(** [const [group, name] = method.split('.')]; a name that is missing is
    [undefined], and as a property key reads "undefined". *)
Definition group_name (m : jsstring) : jsstring * jsstring :=
  match split dot m with
  | group :: name :: _ => (group, name)
  | [group] => (group, js "undefined")
  | [] => ([], js "undefined")
  end.

(** The groups of an instance: [this[group][name]].  LIMITS_METHODS is
    taken to name no property an instance has before the loop ([api], or
    one it inherits). *)
Abbreviation Groups := (gmap (list N) (gmap (list N) Limits)).

(** One turn of the [for] loop of the constructor. *)
Definition register (this : Groups) (entry : Limits) : Groups :=
  let '(group, name) := group_name (method entry) in
  let this :=
    match this !! group with
    | None => <[group := ∅]> this
    | Some _ => this
    end in
  match this !! group with
  | Some g => <[group := <[name := entry]> g]> this
  | None => this
  end.

(** [new Collect({ api })], over LIMITS_METHODS. *)
Definition constructor (LIMITS_METHODS : list Limits) : Groups :=
  fold_left register LIMITS_METHODS ∅.

(** [this[group][name]] *)
Definition get (this : Groups) (group name : jsstring) : option Limits :=
  match this !! group with
  | Some g => g !! name
  | None => None
  end.

End Collect.

(* ===================================================================== *)
(** ** A platform and a portal to run the model on *)
(* ===================================================================== *)

Module Sample.

(** A loaded page, by what the queries of the module find in it. *)
Record Page := {
  page_html : jsstring;
  page_first : jsstring;
  page_last : jsstring;
  page_href : option jsstring;
  page_src : option jsstring;
  page_form : FormField
}.

Definition digit (c : N) : bool := ((48 <=? c) && (c <=? 57))%N.

(** [Number(s)] on decimal numerals; [None] stands for every other value. *)
Definition number (s : jsstring) : option N :=
  if forallb digit s
  then Some (fold_left (fun n c => (10 * n + (c - 48))%N) s 0%N)
  else None.

Definition string_of (n : option N) : jsstring :=
  match n with
  | Some n => js (DecimalString.NilZero.string_of_uint (N.to_uint n))
  | None => js "NaN"
  end.

(** The part of a URL from its first [#], empty when nothing follows it. *)
Fixpoint hash (u : jsstring) : jsstring :=
  match u with
  | [] => []
  | c :: u' => if N.eqb c 35 then match u' with [] => [] | _ => u end
               else hash u'
  end.

Definition hex (c : N) : option N :=
  if digit c then Some (c - 48)%N
  else if ((65 <=? c) && (c <=? 70))%N then Some (c - 55)%N
  else if ((97 <=? c) && (c <=? 102))%N then Some (c - 87)%N
  else None.

(** [+] is a space and [%XX] the character XX (escapes below 80 only). *)
Fixpoint decode (s : jsstring) : jsstring :=
  match s with
  | [] => []
  | c :: s' =>
      if N.eqb c 43 then 32%N :: decode s'
      else
        match s' with
        | a :: ((b :: s'') as t) =>
            match N.eqb c 37, hex a, hex b with
            | true, Some x, Some y =>
                (16 * x + y)%N ::
                match t with _ :: r => decode r | [] => [] end
            | _, _, _ => c :: decode s'
            end
        | _ => c :: decode s'
        end
  end.

(** Cut at every [sep]. *)
Fixpoint split (sep : N) (s : jsstring) : list jsstring :=
  match s with
  | [] => [[]]
  | c :: s' =>
      match split sep s' with
      | piece :: pieces =>
          if N.eqb c sep then [] :: piece :: pieces
          else (c :: piece) :: pieces
      | [] => [[c]]
      end
  end.

(** Cut at the first [=]. *)
Fixpoint entry (s : jsstring) : jsstring * jsstring :=
  match s with
  | [] => ([], [])
  | c :: s' =>
      if N.eqb c 61 then ([], s')
      else let '(k, v) := entry s' in (c :: k, v)
  end.

Definition search_params (s : jsstring) : list (jsstring * jsstring) :=
  map (fun piece => let '(k, v) := entry piece in (decode k, decode v))
      (List.filter (fun piece => match piece with [] => false | _ => true end)
                   (split 38 s)).

Definition platform : Platform :=
  {| JsNumber := option N;
     Number := number;
     String_ := string_of;
     CALLBACK_BLANK := js "https://oauth.vk.com/blank.html";
     URL_hash := hash;
     URLSearchParams := search_params;
     Cheerio := Page;
     cheerio_html := page_html;
     field_prefix_first_text := page_first;
     field_prefix_last_text := page_last;
     activation_wrap_href := page_href;
     captcha_img_src := page_src;
     parseFormField := page_form;
     getFullURL := fun action _ =>
       match action with
       | Some a => inr a
       | None => inl (ForeignError (js "TypeError: Invalid URL"))
       end;
     searchParams_set := fun u k v => u ++ js "?" ++ k ++ js "=" ++ v |}.

(** A portal: the n-th request is answered by [pages n], the n-th question
    to the callback service by [answers n] and a fresh handle. *)
Record Counters := {
  fetched : nat;
  asked : nat
}.

Record Script := {
  pages : nat -> jserror + @Response platform;
  answers : nat -> jserror + jsstring
}.

Definition portal (sc : Script) : @Services platform :=
  let ask (w : Counters) : Counters * (jserror + (jsstring * Handle)) :=
    ({| fetched := fetched w; asked := Datatypes.S (asked w) |},
     match answers sc (asked w) with
     | inl e => inl e
     | inr a => inr (a, N.of_nat (asked w))
     end) in
  {| World := Counters;
     fetchCookie := fun w _ _ _ =>
       ({| fetched := Datatypes.S (fetched w); asked := asked w |},
        pages sc (fetched w));
     processingTwoFactor := ask;
     processingCaptcha := fun w _ => ask w;
     validate_reject := fun w _ _ => w |}.

Definition start : Counters := {| fetched := 0; asked := 0 |}.

Definition form (a : string) : FormField :=
  {| action := Some (js a); fields := ∅ |}.

Definition page (first last : string) (a : string) : Page :=
  {| page_html := js "<html>"; page_first := js first; page_last := js last;
     page_href := Some (js "https://m.vk.com/activate");
     page_src := Some (js "https://m.vk.com/captcha.php");
     page_form := form a |}.

Definition response (u : string) : @Response platform :=
  @Build_Response platform (js u)
    (inr (page "+71" "90" "https://m.vk.com/login")).

(** The pages listed, and a dropped connection after them. *)
Definition listed (l : list (jserror + @Response platform)) (n : nat)
  : jserror + @Response platform :=
  nth n l (inl (ForeignError (js "ECONNRESET"))).

Definition no_options : @Options platform :=
  @Build_Options platform None None.

Definition entry_url : jsstring := js "https://oauth.vk.com/authorize".

(** A portal that shows the two-factor form again after every code. *)
Definition authcheck_page : @Response platform :=
  response "https://m.vk.com/login?act=authcheck".

Definition authcheck_portal : Script :=
  {| pages := fun _ => inr authcheck_page;
     answers := fun _ => inr (js "000000") |}.

(** A portal that shows a captcha again after every answer. *)
Definition captcha_page : @Response platform :=
  response "https://m.vk.com/login?act=captcha".

Definition captcha_portal : Script :=
  {| pages := fun _ => inr captcha_page;
     answers := fun _ => inr (js "zxcv") |}.

(** A portal that shows a captcha and then a page [run] does not know. *)
Definition unknown_page : @Response platform :=
  response "https://m.vk.com/restore".

Definition captcha_then_unknown : Script :=
  {| pages := listed [inr captcha_page; inr unknown_page];
     answers := fun _ => inr (js "zxcv") |}.

(** A portal whose connection drops when the captcha answer is posted. *)
Definition captcha_then_reset : Script :=
  {| pages := listed [inr captcha_page];
     answers := fun _ => inr (js "zxcv") |}.

(** A portal whose connection drops when the two-factor code is posted. *)
Definition authcheck_then_reset : Script :=
  {| pages := listed [inr authcheck_page];
     answers := fun _ => inr (js "000000") |}.

(** The phone-number form, and a portal that accepts the code. *)
Definition security_page : @Response platform :=
  response "https://m.vk.com/login?act=security".

Definition welcome_page : @Response platform :=
  response "https://m.vk.com/feed".

Definition security_portal : Script :=
  {| pages := listed [inr security_page; inr welcome_page];
     answers := fun _ => inr (js "zxcv") |}.

Definition security_again_portal : Script :=
  {| pages := listed [inr security_page; inr security_page];
     answers := fun _ => inr (js "zxcv") |}.

Definition phone_options : @Options platform :=
  @Build_Options platform (Some (js "user@example.com"))
    (Some (@PhoneString platform (js "+71234567890"))).

Definition email_options : @Options platform :=
  @Build_Options platform (Some (js "user@example.com")) None.

(** The blank page, with a token and with an error. *)
Definition granted_page : @Response platform :=
  response "https://oauth.vk.com/blank.html#access_token=tok123&user_id=42".

Definition granted_no_user_page : @Response platform :=
  response "https://oauth.vk.com/blank.html#access_token=tok123".

Definition denied_page : @Response platform :=
  response
    "https://oauth.vk.com/blank.html#error=access_denied&error_description=User%20denied".

(** The blank page, with an action marker in its fragment. *)
Definition granted_captcha_page : @Response platform :=
  response
    "https://oauth.vk.com/blank.html#access_token=tok123&state=act=captcha".

(** Portals that answer the entry URL with a blank page. *)
Definition granted_portal : Script :=
  {| pages := listed [inr granted_page]; answers := fun _ => inr [] |}.

Definition granted_no_user_portal : Script :=
  {| pages := listed [inr granted_no_user_page]; answers := fun _ => inr [] |}.

Definition denied_portal : Script :=
  {| pages := listed [inr denied_page]; answers := fun _ => inr [] |}.

(** A portal that lets every form through. *)
Definition welcome_portal : Script :=
  {| pages := fun _ => inr welcome_page; answers := fun _ => inr [] |}.

(** A page whose form has no action, and a callback service that
    refuses. *)
Definition formless : Page :=
  {| page_html := js "<html>"; page_first := js "+71"; page_last := js "90";
     page_href := None; page_src := None;
     page_form := {| action := None; fields := ∅ |} |}.

Definition refusing_portal : Script :=
  {| pages := fun _ => inr welcome_page;
     answers := fun _ => inl (ForeignError (js "cancelled")) |}.

(** A page whose last label is longer than the number. *)
Definition long_label : Page := page "+7" "1234567" "https://m.vk.com/login".

(** An instance with a two-factor handle stored and two codes counted. *)
Definition stale_state : @State platform (portal welcome_portal) :=
  @Build_State platform (portal welcome_portal)
    (@Build_AccountVerification platform no_options None 0%N (Some 7%N) 2%N)
    start [].

(** An instance with a captcha handle stored. *)
Definition captcha_state : @State platform (portal welcome_portal) :=
  @Build_State platform (portal welcome_portal)
    (@Build_AccountVerification platform no_options (Some 7%N) 0%N None 0%N)
    start
    [@EvProcessingCaptcha platform
       {| type_ := ACCOUNT_VERIFICATION; sid := None; src := None |}
       (inr (js "zxcv", 7%N))].

(** A table of methods. *)
Definition limits : list Collect.Limits :=
  [ {| Collect.method := js "users.get"; Collect.limit := 1000;
       Collect.max := 1000 |};
    {| Collect.method := js "wall.get"; Collect.limit := 100;
       Collect.max := 100 |};
    {| Collect.method := js "users.search"; Collect.limit := 1000;
       Collect.max := 1000 |} ].

(** A response whose body cannot be read. *)
Definition unreadable_page : @Response platform :=
  @Build_Response platform (js "https://m.vk.com/login?act=authcheck")
    (inl (ForeignError (js "aborted"))).

(** The state of a run that has been sent the blank page at once. *)
Definition granted_state : @State platform (portal granted_portal) :=
  @Build_State platform (portal granted_portal)
    (@constructor platform no_options)
    {| fetched := 1; asked := 0 |}
    [@EvFetch platform GET entry_url None (inr granted_page)].

(** A portal that is down. *)
Definition dead_portal : Script :=
  {| pages := listed [];
     answers := fun _ => inr (js "000000") |}.

(** [run] on the entry URL, from a fresh instance and a portal at its
    start. *)
Definition run_from (sc : Script) (o : @Options platform) (fuel : nat)
  : @Outcome platform * @State platform (portal sc) :=
  @run platform (portal sc) fuel entry_url
    (@initial platform (portal sc) o start).

(** A handler on a page, from a fresh instance and a portal at its start. *)
Definition fresh (sc : Script) (o : @Options platform)
  : @State platform (portal sc) :=
  @initial platform (portal sc) o start.

Definition the_page : Page := page "+71" "90" "https://m.vk.com/login".

End Sample.

(* ===================================================================== *)
(** ** Properties of the loop *)
(* ===================================================================== *)

Section Loop.

Context {P : Platform} {S : Services}.

Lemma loop_turn (fuel : nat) (response : Response) (st : State) :
  loop (Datatypes.S fuel) response st =
  match turn response st with
  | (Throw e, st') => (Raised e, st')
  | (Normal (Return r), st') => (Returned r, st')
  | (Normal (Continue response'), st') => loop fuel response' st'
  end.
Proof. reflexivity. Qed.

Lemma turn_blank (response : Response) (st : State) :
  includes (url response) CALLBACK_BLANK = true ->
  turn response st =
  match blank response st with
  | (Normal r, st') => (Normal (Return r), st')
  | (Throw e, st') => (Throw e, st')
  end.
Proof.
  intros Hb. unfold turn. rewrite Hb. unfold bind.
  destruct (blank response st) as [[r | e] st']; reflexivity.
Qed.

Lemma blank_pure (response : Response) (st : State) :
  snd (blank response st) = st.
Proof.
  unfold blank.
  destruct (params_has _ _); reflexivity.
Qed.

(** C5. On a response whose URL contains the blank-page marker, [run]
    reads the fragment of the URL (without its [#]) as parameters.  With an
    [error] parameter it throws an [AuthorizationError] of code
    AUTHORIZATION_FAILED whose message is "Failed passed grant access: "
    followed by [error_description], or by "Unknown error" when that
    parameter is absent (or empty).  Without one it returns: [token] is the
    [access_token] parameter, [user] is [Number(user_id)] when [user_id] is
    there and undefined when it is not.  Nothing is called on the way. *)
Theorem run_blank_page (fuel : nat) (response : Response) (st : State) :
  includes (url response) CALLBACK_BLANK = true ->
  let params := blank_params response in
  (params_has params (js "error") = true ->
   exists description,
     loop (Datatypes.S fuel) response st =
       (Raised (AuthError
                  {| message := js "Failed passed grant access: " ++ description;
                     code := AUTHORIZATION_FAILED;
                     pageHtml := None |}), st) /\
     (params_get params (js "error_description") = None ->
      description = js "Unknown error") /\
     (params_get params (js "error_description") = Some [] ->
      description = js "Unknown error") /\
     (forall d, params_get params (js "error_description") = Some d ->
                d <> [] -> description = d)) /\
  (params_has params (js "error") = false ->
   exists result,
     loop (Datatypes.S fuel) response st = (Returned result, st) /\
     token result = params_get params (js "access_token") /\
     (forall u, params_get params (js "user_id") = Some u ->
                user result = Some (Number u)) /\
     (params_get params (js "user_id") = None -> user result = None)).
Proof.
  intros Hb params. rewrite loop_turn, (turn_blank _ _ Hb).
  unfold blank. fold (blank_params response). fold params.
  split; intros He; rewrite He.
  - eexists. split; [reflexivity |].
    repeat split.
    + intros ->. reflexivity.
    + intros ->. reflexivity.
    + intros d -> Hd. destruct d; [congruence | reflexivity].
  - eexists. split; [reflexivity |]. cbn.
    repeat split.
    + intros u ->. reflexivity.
    + intros ->. reflexivity.
Qed.

(** C9. When the markup has been loaded and the URL contains neither the
    blank-page marker nor any of the four action markers, the turn throws
    an [AuthorizationError] of code AUTHORIZATION_FAILED and message
    "Account verification failed"; loading the markup is all it did. *)
Theorem run_unknown_page (fuel : nat) (response : Response) (doc : Cheerio)
    (st : State) :
  text response = inr doc ->
  includes (url response) CALLBACK_BLANK = false ->
  includes (url response) ACTION_AUTH_CODE = false ->
  includes (url response) ACTION_SECURITY_CODE = false ->
  includes (url response) ACTION_VALIDATE = false ->
  includes (url response) ACTION_CAPTCHA = false ->
  loop (Datatypes.S fuel) response st =
    (Raised (AuthError {| message := js "Account verification failed";
                          code := AUTHORIZATION_FAILED;
                          pageHtml := None |}),
     after st (world st) [EvText (inr doc)]).
Proof.
  intros Ht Hb H1 H2 H3 H4.
  rewrite loop_turn. unfold turn.
  rewrite Hb, H1, H2, H3, H4.
  unfold bind, load, log, bind, lift. rewrite Ht. reflexivity.
Qed.

(** C10. The markers are tried in one order: the blank page, then
    act=authcheck, act=security, act=validate, act=captcha; the first one
    the URL contains decides the turn, whatever else the URL contains.  On
    a URL with the blank-page marker the markup is not loaded: the trace and
    the world stay as they are. *)
Theorem turn_order (response : Response) (st : State) :
  let u := url response in
  (includes u CALLBACK_BLANK = true ->
   turn response st = (r <- blank response ;; ret (Return r)) st /\
   snd (turn response st) = st) /\
  (includes u CALLBACK_BLANK = false ->
   includes u ACTION_AUTH_CODE = true ->
   turn response st =
     (doc <- load response ;;
      r <- processTwoFactorForm response doc ;; ret (Continue r)) st) /\
  (includes u CALLBACK_BLANK = false ->
   includes u ACTION_AUTH_CODE = false ->
   includes u ACTION_SECURITY_CODE = true ->
   turn response st =
     (doc <- load response ;;
      r <- processSecurityForm response doc ;; ret (Continue r)) st) /\
  (includes u CALLBACK_BLANK = false ->
   includes u ACTION_AUTH_CODE = false ->
   includes u ACTION_SECURITY_CODE = false ->
   includes u ACTION_VALIDATE = true ->
   turn response st =
     (doc <- load response ;;
      r <- processValidateForm response doc ;; ret (Continue r)) st) /\
  (includes u CALLBACK_BLANK = false ->
   includes u ACTION_AUTH_CODE = false ->
   includes u ACTION_SECURITY_CODE = false ->
   includes u ACTION_VALIDATE = false ->
   includes u ACTION_CAPTCHA = true ->
   turn response st =
     (doc <- load response ;;
      r <- processCaptchaForm response doc ;; ret (Continue r)) st).
Proof.
  intros u. unfold turn. fold u.
  split; [| split; [| split; [| split]]].
  - intros Hb. rewrite Hb. split; [reflexivity |]. unfold bind.
    pose proof (blank_pure response st) as Hp.
    destruct (blank response st) as [[r | e] st']; exact Hp.
  - intros -> ->. reflexivity.
  - intros -> -> ->. reflexivity.
  - intros -> -> -> ->. reflexivity.
  - intros -> -> -> -> ->. reflexivity.
Qed.

End Loop.

(* ===================================================================== *)
(** ** The phone-number form *)
(* ===================================================================== *)

Section Security.

Context {P : Platform} {S : Services}.

Lemma length_nonneg (s : jsstring) : 0 <= length s.
Proof. unfold length. lia. Qed.

(** Between two indices in range, [slice] is the part of the string that
    is left when [a] units are dropped in front and [b] at the back. *)
Lemma slice_middle (s : jsstring) (a b : Z) :
  0 <= a -> 0 <= b -> a + b <= length s ->
  slice s a (length s - b) =
  firstn (List.length s - Z.to_nat a - Z.to_nat b) (skipn (Z.to_nat a) s).
Proof.
  intros Ha Hb Hab. unfold slice, relativeIndex.
  destruct (Z.ltb_spec a 0); [lia |].
  destruct (Z.ltb_spec (length s - b) 0); [lia |].
  unfold length in *. f_equal; [| f_equal]; lia.
Qed.

(** When the end index falls before the start, nothing is left. *)
Lemma slice_empty (s : jsstring) (a b : Z) :
  0 <= a -> 0 <= b -> b <= length s -> length s < a + b ->
  slice s a (length s - b) = [].
Proof.
  intros Ha Hb Hbs Hab. unfold slice, relativeIndex.
  destruct (Z.ltb_spec a 0); [lia |].
  destruct (Z.ltb_spec (length s - b) 0); [lia |].
  replace (Z.to_nat _) with 0%nat by (unfold length in *; lia).
  reflexivity.
Qed.

Lemma security_number_phone (o : Options) (p : PhoneValue) :
  phone o = Some p -> security_number o = inr p.
Proof. unfold security_number. intros ->. reflexivity. Qed.

Lemma security_form_steps (response : Response) (doc : Cheerio) (st : State)
    (number : PhoneValue) (u : jsstring) :
  security_number (options (self st)) = inr number ->
  getFullURL (action (parseFormField doc)) (url response) = inr u ->
  let body :=
    <[js "code" := security_code (normalize_number number) doc]>
      (fields (parseFormField doc)) in
  let sent := fetchCookie (world st) POST u (Some body) in
  processSecurityForm response doc st =
  match snd sent with
  | inl e =>
      (Throw e,
       after st (fst sent) [EvParseFormField; EvFetch POST u (Some body) (inl e)])
  | inr r =>
      (if includes (url r) ACTION_SECURITY_CODE
       then Throw (mkError "Invalid phone number" INVALID_PHONE_NUMBER None)
       else Normal r,
       after st (fst sent) [EvParseFormField; EvFetch POST u (Some body) (inr r)])
  end.
Proof.
  intros Hn Hu body sent.
  unfold processSecurityForm, bind, this, parse_form, bind, log, ret, fetch,
    call, lift at 1.
  rewrite Hn. cbn [lift ret throw self world trace].
  rewrite Hu. cbn [lift ret throw self world trace].
  fold body. fold sent.
  destruct sent as [w [e | r]]; cbn [fst snd lift throw ret].
  - unfold after. cbn. rewrite <- app_assoc. reflexivity.
  - destruct (includes (url r) ACTION_SECURITY_CODE);
      unfold after; cbn; rewrite <- app_assoc; reflexivity.
Qed.

(** C6. With a number to go by (the [phone] option, or else a [login]
    without [@]), the code posted is [number.slice(prefix, number.length -
    postfix)]: [number] is the option trimmed and without one leading [+]
    or [00] when it is a string, [String(phone)] when it is a number;
    [prefix] is the length of the first [.field_prefix] text, trimmed and
    with its first [+] removed; [postfix] is the length of the last
    [.field_prefix] text, trimmed.  The other fields of the form are posted
    as parsed. *)
Theorem security_code_posted (response : Response) (doc : Cheerio)
    (st : State) (candidate : PhoneValue) (u : jsstring) :
  security_number (options (self st)) = inr candidate ->
  getFullURL (action (parseFormField doc)) (url response) = inr u ->
  let number :=
    match candidate with
    | PhoneString s => replaceLeadingPlusOr00 (trim s)
    | PhoneNumber n => String_ n
    end in
  let prefix :=
    length (replaceFirstPlus (trim (field_prefix_first_text doc))) in
  let suffix := length (trim (field_prefix_last_text doc)) in
  exists body w' r,
    fetchCookie (world st) POST u (Some body) = (w', r) /\
    trace (snd (processSecurityForm response doc st)) =
      trace st ++ [EvParseFormField; EvFetch POST u (Some body) r] /\
    body !! js "code" = Some (slice number prefix (length number - suffix)) /\
    (forall k, k <> js "code" ->
               body !! k = fields (parseFormField doc) !! k) /\
    (prefix + suffix <= length number ->
     body !! js "code" =
       Some (firstn (List.length number - Z.to_nat prefix - Z.to_nat suffix)
                    (skipn (Z.to_nat prefix) number))).
Proof.
  intros Hn Hu number prefix suffix.
  rewrite (security_form_steps _ _ _ _ _ Hn Hu).
  set (body := <[_ := _]> _).
  destruct (fetchCookie (world st) POST u (Some body)) as [w' r] eqn:Hf.
  exists body, w', r. split; [exact Hf |].
  assert (Hcode : body !! js "code" =
                  Some (slice number prefix (length number - suffix))).
  { unfold body. rewrite lookup_insert_eq. reflexivity. }
  split; [| split; [exact Hcode | split]].
  - cbn [snd]. destruct r as [e | r]; [reflexivity |].
    destruct (includes (url r) ACTION_SECURITY_CODE); reflexivity.
  - intros k Hk. unfold body. rewrite lookup_insert_ne; congruence.
  - intros Hlen. etransitivity; [exact Hcode |]. f_equal.
    apply slice_middle; [apply length_nonneg | apply length_nonneg | exact Hlen].
Qed.

(** C7, as the code has it.  Without a [phone], and with a [login] that is
    missing or contains [@], the handler throws an [AuthorizationError] of
    code INVALID_PHONE_NUMBER and message "Missing phone number in the
    phone or login field" before anything else: nothing is parsed, asked or
    posted, the state is as it was.  A [phone] that is configured is the
    number, whatever the [login]. *)
Theorem security_missing_phone (response : Response) (doc : Cheerio)
    (st : State) :
  (phone (options (self st)) = None ->
   (login (options (self st)) = None \/
    exists l, login (options (self st)) = Some l /\
              includes l (js "@") = true) ->
   processSecurityForm response doc st =
     (Throw (AuthError
               {| message :=
                    js "Missing phone number in the phone or login field";
                  code := INVALID_PHONE_NUMBER;
                  pageHtml := None |}), st)) /\
  (forall p, phone (options (self st)) = Some p ->
             security_number (options (self st)) = inr p).
Proof.
  split.
  - intros Hp Hl.
    unfold processSecurityForm, bind, this, security_number.
    rewrite Hp.
    destruct Hl as [-> | (l & -> & ->)]; reflexivity.
  - intros p. apply security_number_phone.
Qed.

(** C8. Once the code is posted and a response has come back: if its URL
    still contains act=security the handler throws an [AuthorizationError]
    of code INVALID_PHONE_NUMBER, and if not it returns that very
    response. *)
Theorem security_response_checked (response : Response) (doc : Cheerio)
    (st : State) (candidate : PhoneValue) (u : jsstring) (w' : World)
    (r : Response) :
  security_number (options (self st)) = inr candidate ->
  getFullURL (action (parseFormField doc)) (url response) = inr u ->
  let body :=
    <[js "code" := security_code (normalize_number candidate) doc]>
      (fields (parseFormField doc)) in
  fetchCookie (world st) POST u (Some body) = (w', inr r) ->
  (includes (url r) ACTION_SECURITY_CODE = true ->
   fst (processSecurityForm response doc st) =
     Throw (AuthError {| message := js "Invalid phone number";
                         code := INVALID_PHONE_NUMBER;
                         pageHtml := None |})) /\
  (includes (url r) ACTION_SECURITY_CODE = false ->
   fst (processSecurityForm response doc st) = Normal r) /\
  snd (processSecurityForm response doc st) =
    after st w' [EvParseFormField; EvFetch POST u (Some body) (inr r)].
Proof.
  intros Hn Hu body Hf.
  rewrite (security_form_steps _ _ _ _ _ Hn Hu).
  fold body. rewrite Hf. cbn [fst snd].
  split; [| split].
  - intros ->. reflexivity.
  - intros ->. reflexivity.
  - reflexivity.
Qed.

End Security.

(* ===================================================================== *)
(** ** What the handlers keep *)
(* ===================================================================== *)

Section Keeps.

Context {P : Platform} {S : Services}.
Variable Q : AccountVerification -> Prop.

Lemma keeps_ret {A} (a : A) : keeps Q (ret a).
Proof. intros st H. exact H. Qed.

Lemma keeps_throw {A} (e : jserror) : keeps Q (throw (A := A) e).
Proof. intros st H. exact H. Qed.

Lemma keeps_lift {A} (r : jserror + A) : keeps Q (lift r).
Proof. destruct r; [apply keeps_throw | apply keeps_ret]. Qed.

Lemma keeps_this : keeps Q this.
Proof. intros st H. exact H. Qed.

Lemma keeps_log (ev : Event) : keeps Q (log ev).
Proof. intros st H. exact H. Qed.

Lemma keeps_reject (h : Handle) (e : jserror) : keeps Q (reject h e).
Proof. intros st H. exact H. Qed.

Lemma keeps_call {A} (f : World -> World * (jserror + A))
    (ev : jserror + A -> Event) :
  keeps Q (call f ev).
Proof.
  intros st H. unfold call.
  destruct (f (world st)) as [w [e | a]]; exact H.
Qed.

Lemma keeps_fetch (m : Method) (u : jsstring) (body : option Fields) :
  keeps Q (fetch m u body).
Proof. apply keeps_call. Qed.

Lemma keeps_bind {A B} (m : M A) (k : A -> M B) :
  keeps Q m -> (forall a, keeps Q (k a)) -> keeps Q (bind m k).
Proof.
  intros Hm Hk st H. unfold bind.
  specialize (Hm st H).
  destruct (m st) as [[a | e] st']; cbn [snd] in *.
  - apply Hk, Hm.
  - exact Hm.
Qed.

Lemma keeps_try_catch {A} (m : M A) (h : jserror -> M A) :
  keeps Q m -> (forall e, keeps Q (h e)) -> keeps Q (try_catch m h).
Proof.
  intros Hm Hh st H. unfold try_catch.
  specialize (Hm st H).
  destruct (m st) as [[a | e] st']; cbn [snd] in *.
  - exact Hm.
  - apply Hh, Hm.
Qed.

Lemma keeps_parse_form (doc : Cheerio) : keeps Q (parse_form doc).
Proof. intros st H. exact H. Qed.

Lemma keeps_load (response : Response) : keeps Q (load response).
Proof.
  unfold load. apply keeps_bind; [apply keeps_log | intros _; apply keeps_lift].
Qed.

End Keeps.

Create HintDb keeps.
#[local] Hint Resolve keeps_ret keeps_throw keeps_lift keeps_this keeps_log
  keeps_reject keeps_call keeps_fetch keeps_parse_form keeps_load : keeps.

Ltac keeps_steps :=
  repeat first
    [ apply keeps_bind; [| intros ?]
    | apply keeps_try_catch; [| intros ?]
    | match goal with |- keeps _ (let '(_, _) := ?p in _) => destruct p end
    | solve [auto with keeps] ].

Section TwoFactor.

Context {P : Platform} {S : Services}.

Lemma blank_keeps Q (response : Response) : keeps Q (blank response).
Proof. intros st H. rewrite blank_pure. exact H. Qed.

Lemma processSecurityForm_keeps Q (response : Response) (doc : Cheerio) :
  keeps Q (processSecurityForm response doc).
Proof.
  unfold processSecurityForm. keeps_steps.
  destruct (includes _ _); auto with keeps.
Qed.

Lemma processValidateForm_keeps Q (response : Response) (doc : Cheerio) :
  keeps Q (processValidateForm response doc).
Proof. unfold processValidateForm. keeps_steps. Qed.

(** The captcha form changes the captcha fields only. *)
Lemma processCaptchaForm_idle (response : Response) (doc : Cheerio) :
  keeps twoFactor_idle (processCaptchaForm response doc).
Proof.
  assert (Hset : forall v, keeps twoFactor_idle (set_captchaValidate v))
    by (intros v st H; exact H).
  assert (Hincr : keeps twoFactor_idle incr_captchaAttempts)
    by (intros st H; exact H).
  unfold processCaptchaForm. keeps_steps.
  destruct (captchaValidate _); keeps_steps; auto.
Qed.

(** The two-factor form finds nothing stored, so it rejects nothing and
    counts nothing; and it stores nothing. *)
Lemma processTwoFactorForm_idle (response : Response) (doc : Cheerio) :
  keeps twoFactor_idle (processTwoFactorForm response doc).
Proof.
  intros st [Hv Ha].
  unfold processTwoFactorForm.
  unfold bind at 1, this at 1. rewrite Hv.
  unfold bind at 1, ret at 1.
  unfold bind at 1, this at 1. rewrite Ha.
  change (TWO_FACTOR_ATTEMPTS <=? 0)%N with false. cbv iota.
  assert (Hk : keeps twoFactor_idle
                 (form <- parse_form doc ;;
                  answer <- call processingTwoFactor EvProcessingTwoFactor ;;
                  let '(code, validate) := answer in
                  let fields := <[js "code" := code]> (fields form) in
                  try_catch
                    (u <- lift (getFullURL (action form) (url response)) ;;
                     fetch POST u (Some fields))
                    (fun error => reject validate error ;;; throw error))).
  { keeps_steps. }
  apply Hk. split; assumption.
Qed.

Lemma turn_idle (response : Response) : keeps twoFactor_idle (turn response).
Proof.
  unfold turn.
  destruct (includes _ CALLBACK_BLANK).
  { apply keeps_bind; [apply blank_keeps | intros ?; apply keeps_ret]. }
  apply keeps_bind; [apply keeps_load | intros doc].
  destruct (includes _ ACTION_AUTH_CODE).
  { apply keeps_bind; [apply processTwoFactorForm_idle | intros ?; apply keeps_ret]. }
  destruct (includes _ ACTION_SECURITY_CODE).
  { apply keeps_bind; [apply processSecurityForm_keeps | intros ?; apply keeps_ret]. }
  destruct (includes _ ACTION_VALIDATE).
  { apply keeps_bind; [apply processValidateForm_keeps | intros ?; apply keeps_ret]. }
  destruct (includes _ ACTION_CAPTCHA).
  { apply keeps_bind; [apply processCaptchaForm_idle | intros ?; apply keeps_ret]. }
  apply keeps_throw.
Qed.

Lemma loop_idle (fuel : nat) :
  forall (response : Response) (st : State),
    twoFactor_idle (self st) ->
    twoFactor_idle (self (snd (loop fuel response st))).
Proof.
  induction fuel as [| fuel IH]; intros response st H.
  - exact H.
  - rewrite loop_turn.
    pose proof (turn_idle response st H) as Ht.
    destruct (turn response st) as [[[r | response'] | e] st']; cbn [snd] in *.
    + exact Ht.
    + apply IH, Ht.
    + exact Ht.
Qed.

(** X22. However a run goes and however long it lasts,
    [twoFactorValidate] is undefined and [twoFactorAttempts] is 0 all
    along: the test against TWO_FACTOR_ATTEMPTS never succeeds. *)
Lemma run_idle (fuel : nat) (redirectUri : jsstring) (o : Options)
    (w : World) :
  twoFactor_idle (self (snd (run fuel redirectUri (initial o w)))).
Proof.
  unfold run.
  pose proof (keeps_fetch twoFactor_idle GET redirectUri None (initial o w))
    as Hf.
  destruct (fetch GET redirectUri None (initial o w)) as [[r | e] st'];
    cbn [snd] in *.
  - apply loop_idle, Hf. split; reflexivity.
  - apply Hf. split; reflexivity.
Qed.

End TwoFactor.

(* ===================================================================== *)
(** ** Handles and errors *)
(* ===================================================================== *)

Section Rejections.

Context {P : Platform} {S : Services}.

Lemma outstanding_snoc (t : list Event) (ev : Event) :
  outstanding (t ++ [ev]) = outstanding_step (outstanding t) ev.
Proof. unfold outstanding. rewrite fold_left_app. reflexivity. Qed.

Lemma rejections_app (t t' : list Event) :
  rejections (t ++ t') = rejections t ++ rejections t'.
Proof. unfold rejections. apply flat_map_app. Qed.

(** The error of an unknown page goes up with the handles as they were:
    nothing is rejected on the way. *)
Lemma unknown_page_rejects_nothing (fuel : nat) (response : Response)
    (doc : Cheerio) (st : State) :
  text response = inr doc ->
  includes (url response) CALLBACK_BLANK = false ->
  includes (url response) ACTION_AUTH_CODE = false ->
  includes (url response) ACTION_SECURITY_CODE = false ->
  includes (url response) ACTION_VALIDATE = false ->
  includes (url response) ACTION_CAPTCHA = false ->
  exists e st',
    loop (Datatypes.S fuel) response st = (Raised e, st') /\
    outstanding (trace st') = outstanding (trace st) /\
    rejections (trace st') = rejections (trace st).
Proof.
  intros Ht Hb H1 H2 H3 H4.
  rewrite loop_turn. unfold turn.
  rewrite Hb, H1, H2, H3, H4.
  unfold bind, load, log, bind, lift. rewrite Ht.
  eexists _, _. split; [reflexivity |]. cbn [trace]. split.
  - rewrite outstanding_snoc. reflexivity.
  - rewrite rejections_app. cbn. apply app_nil_r.
Qed.

(** What [processTwoFactorForm] does when nothing is stored and the limit
    is not reached, up to the answer of the callback service. *)
Lemma twoFactor_form_steps (response : Response) (doc : Cheerio) (st : State)
    (code : jsstring) (h : Handle) (w1 : World) :
  twoFactorValidate (self st) = None ->
  (twoFactorAttempts (self st) < TWO_FACTOR_ATTEMPTS)%N ->
  processingTwoFactor (world st) = (w1, inr (code, h)) ->
  let body := <[js "code" := code]> (fields (parseFormField doc)) in
  let asked :=
    after st w1 [EvParseFormField; EvProcessingTwoFactor (inr (code, h))] in
  processTwoFactorForm response doc st =
  try_catch
    (u <- lift (getFullURL (action (parseFormField doc)) (url response)) ;;
     fetch POST u (Some body))
    (fun error => reject h error ;;; throw error) asked.
Proof.
  intros Hv Ha Hc body asked.
  unfold processTwoFactorForm.
  unfold bind at 1, this at 1. rewrite Hv.
  unfold bind at 1, ret at 1.
  unfold bind at 1, this at 1.
  destruct (N.leb_spec TWO_FACTOR_ATTEMPTS (twoFactorAttempts (self st)));
    [lia |].
  unfold bind at 1, parse_form, bind at 1, log, ret.
  unfold bind at 1, call. cbn [world self trace].
  rewrite Hc. cbn [lift ret].
  unfold asked, after. rewrite <- app_assoc. reflexivity.
Qed.

(** C2, as the code has it.  When the POST of the two-factor form fails,
    the handler rejects the handle it has just been given by the callback
    service, with the error of the POST, and then rethrows that error: the
    rejection is the last call made. *)
Theorem twoFactor_post_failure (response : Response) (doc : Cheerio)
    (st : State) (code : jsstring) (h : Handle) (w1 w2 : World)
    (u : jsstring) (e : jserror) :
  twoFactorValidate (self st) = None ->
  (twoFactorAttempts (self st) < TWO_FACTOR_ATTEMPTS)%N ->
  processingTwoFactor (world st) = (w1, inr (code, h)) ->
  getFullURL (action (parseFormField doc)) (url response) = inr u ->
  let body := <[js "code" := code]> (fields (parseFormField doc)) in
  fetchCookie w1 POST u (Some body) = (w2, inl e) ->
  processTwoFactorForm response doc st =
    (Throw e,
     after st (validate_reject w2 h e)
       [EvParseFormField;
        EvProcessingTwoFactor (inr (code, h));
        EvFetch POST u (Some body) (inl e);
        EvReject h e]).
Proof.
  intros Hv Ha Hc Hu body Hf.
  rewrite (twoFactor_form_steps _ _ _ _ _ _ Hv Ha Hc). fold body.
  unfold try_catch, bind at 1. rewrite Hu.
  unfold lift at 1, ret at 1, fetch, call. cbn [world self trace after].
  rewrite Hf. cbn [lift throw].
  unfold bind, reject, throw, after. cbn [world self trace].
  rewrite <- !app_assoc. reflexivity.
Qed.

(** X21. The two-factor form, when the URL of the form cannot be made:
    the [try] covers [getFullURL], so the handle just given is rejected with
    the error of [getFullURL], which is then thrown; nothing is posted. *)
Lemma twoFactor_url_failure (response : Response) (doc : Cheerio)
    (st : State) (code : jsstring) (h : Handle) (w1 : World) (e : jserror) :
  twoFactorValidate (self st) = None ->
  (twoFactorAttempts (self st) < TWO_FACTOR_ATTEMPTS)%N ->
  processingTwoFactor (world st) = (w1, inr (code, h)) ->
  getFullURL (action (parseFormField doc)) (url response) = inl e ->
  processTwoFactorForm response doc st =
    (Throw e,
     after st (validate_reject w1 h e)
       [EvParseFormField; EvProcessingTwoFactor (inr (code, h)); EvReject h e]).
Proof.
  intros Hv Ha Hc Hu.
  rewrite (twoFactor_form_steps _ _ _ _ _ _ Hv Ha Hc).
  unfold try_catch, bind at 1. rewrite Hu.
  unfold lift at 1, throw at 1.
  unfold bind, reject, throw, after. cbn [world self trace].
  rewrite <- !app_assoc. reflexivity.
Qed.

(** X20. The two-factor form, when the callback service gives a code and
    the POST comes back: the form was posted to its URL with the code in
    [code], the handler returns the response of the POST, and nothing is
    rejected. *)
Lemma twoFactor_post_success (response : Response) (doc : Cheerio)
    (st : State) (code : jsstring) (h : Handle) (w1 w2 : World)
    (u : jsstring) (r : Response) :
  twoFactorValidate (self st) = None ->
  (twoFactorAttempts (self st) < TWO_FACTOR_ATTEMPTS)%N ->
  processingTwoFactor (world st) = (w1, inr (code, h)) ->
  getFullURL (action (parseFormField doc)) (url response) = inr u ->
  let body := <[js "code" := code]> (fields (parseFormField doc)) in
  fetchCookie w1 POST u (Some body) = (w2, inr r) ->
  processTwoFactorForm response doc st =
    (Normal r,
     after st w2
       [EvParseFormField;
        EvProcessingTwoFactor (inr (code, h));
        EvFetch POST u (Some body) (inr r)]).
Proof.
  intros Hv Ha Hc Hu body Hf.
  rewrite (twoFactor_form_steps _ _ _ _ _ _ Hv Ha Hc). fold body.
  unfold try_catch, bind at 1. rewrite Hu.
  unfold lift at 1, ret at 1, fetch, call. cbn [world self trace after].
  rewrite Hf. cbn [lift ret]. unfold after. cbn [world self trace].
  rewrite <- !app_assoc. reflexivity.
Qed.

End Rejections.


(* ===================================================================== *)
(** ** The captcha form *)
(* ===================================================================== *)

Section Captcha.

Context {P : Platform} {S : Services}.

(** [processCaptchaForm], call by call. *)
Lemma captcha_form_steps (response : Response) (doc : Cheerio) (st : State) :
  let st0 := captcha_entered st in
  let payload := captcha_payload doc in
  processCaptchaForm response doc st =
  match processingCaptcha (world st0) payload with
  | (w1, inl e) =>
      (Throw e,
       after st0 w1 [EvParseFormField; EvProcessingCaptcha payload (inl e)])
  | (w1, inr (key, h)) =>
      let st1 :=
        {| self := with_captchaValidate (Some h) (self st0);
           world := w1;
           trace := trace st0 ++
                    [EvParseFormField;
                     EvProcessingCaptcha payload (inr (key, h))] |} in
      match getFullURL (action (parseFormField doc)) (url response) with
      | inl e => (Throw e, st1)
      | inr u =>
          let u := searchParams_set u (js "utf8") (js "1") in
          let body :=
            <[js "captcha_key" := key]> (fields (parseFormField doc)) in
          let sent := fetchCookie w1 POST u (Some body) in
          (match snd sent with inl e => Throw e | inr r => Normal r end,
           after st1 (fst sent) [EvFetch POST u (Some body) (snd sent)])
      end
  end.
Proof.
  intros st0 payload. subst st0 payload.
  unfold processCaptchaForm, captcha_entered, captcha_payload.
  unfold bind at 1, this at 1.
  destruct (captchaValidate (self st)) as [h0 |].
  - unfold bind at 1, bind at 1, reject at 1, bind at 1,
      set_captchaValidate at 1, set_this at 1, incr_captchaAttempts,
      set_this at 1.
    cbn [self world trace].
    change (mkError "Incorrect captcha code" FAILED_PASSED_CAPTCHA None)
      with stale_captcha.
    unfold bind at 1, parse_form, bind at 1, log, ret.
    cbn [self world trace].
    unfold bind at 1, call. cbn [self world trace].
    destruct (processingCaptcha _ _) as [w1 [e | [key h]]]; cbn [lift throw ret].
    + unfold after. cbn [self world trace]. rewrite <- !app_assoc. reflexivity.
    + unfold bind at 1, set_captchaValidate, set_this.
      cbn [self world trace].
      unfold bind at 1.
      destruct (getFullURL _ _) as [e | u]; cbn [lift throw ret].
      * rewrite <- !app_assoc. reflexivity.
      * unfold fetch, call, after. cbn [self world trace].
        destruct (fetchCookie _ _ _ _) as [w2 [e | r]];
          cbn [fst snd lift throw ret]; rewrite <- !app_assoc; reflexivity.
  - unfold bind at 1, ret at 1.
    unfold bind at 1, parse_form, bind at 1, log, ret.
    cbn [self world trace].
    unfold bind at 1, call. cbn [self world trace].
    destruct (processingCaptcha _ _) as [w1 [e | [key h]]]; cbn [lift throw ret].
    + unfold after. cbn [self world trace]. rewrite <- !app_assoc. reflexivity.
    + unfold bind at 1, set_captchaValidate, set_this.
      cbn [self world trace].
      unfold bind at 1.
      destruct (getFullURL _ _) as [e | u]; cbn [lift throw ret].
      * rewrite <- !app_assoc. reflexivity.
      * unfold fetch, call, after. cbn [self world trace].
        destruct (fetchCookie _ _ _ _) as [w2 [e | r]];
          cbn [fst snd lift throw ret]; rewrite <- !app_assoc; reflexivity.
Qed.

(** X19. The captcha form with a handle stored: that handle is rejected
    with FAILED_PASSED_CAPTCHA and no markup, the field is cleared and the
    count goes up by one, and only then is the form parsed and the callback
    service asked: one rejection, before the question, and none after. *)
Lemma captcha_rejects_before_asking (response : Response) (doc : Cheerio)
    (st : State) (h : Handle) :
  captchaValidate (self st) = Some h ->
  let payload := captcha_payload doc in
  let asked :=
    processingCaptcha (validate_reject (world st) h stale_captcha) payload in
  exists rest,
    trace (snd (processCaptchaForm response doc st)) =
      trace st ++ EvReject h stale_captcha :: EvParseFormField ::
                  EvProcessingCaptcha payload (snd asked) :: rest /\
    rejections rest = [] /\
    captchaAttempts (self (snd (processCaptchaForm response doc st))) =
      (captchaAttempts (self st) + 1)%N /\
    captchaValidate (self (snd (processCaptchaForm response doc st))) =
      match snd asked with
      | inr (_, h') => Some h'
      | inl _ => None
      end.
Proof.
  intros Hv payload asked.
  rewrite captcha_form_steps. fold payload.
  unfold captcha_entered. rewrite Hv. cbn [world self trace]. fold asked.
  destruct asked as [w1 [e | [key h']]].
  - exists []. unfold after. cbn [snd self world trace].
    rewrite <- !app_assoc. repeat split; reflexivity.
  - destruct (getFullURL _ _) as [e | u].
    + exists []. cbn [snd self world trace].
      rewrite <- !app_assoc. repeat split; reflexivity.
    + eexists [_]. unfold after. cbn [snd self world trace].
      rewrite <- !app_assoc. repeat split; reflexivity.
Qed.

End Captcha.

(* ===================================================================== *)
(** ** A loop without a bound *)
(* ===================================================================== *)

Section Unbounded.

Context {P : Platform} {S : Services}.

(** A portal that answers every request with a captcha page whose form
    has a URL, and a callback service that answers every captcha: [Inv]
    holds of the worlds in which this goes on, [Shown] of the pages the
    portal shows. *)
Variable Inv : World -> Prop.
Variable Shown : Response -> Prop.
Hypothesis fetch_captcha :
  forall w m u b, Inv w ->
    exists w' r, fetchCookie w m u b = (w', inr r) /\ Inv w' /\ Shown r.
Hypothesis shown_captcha :
  forall r, Shown r -> is_captcha_page r = true.
Hypothesis captcha_answered :
  forall w p, Inv w ->
    exists w' key h, processingCaptcha w p = (w', inr (key, h)) /\ Inv w'.
Hypothesis reject_harmless :
  forall w h e, Inv w -> Inv (validate_reject w h e).
Hypothesis url_made :
  forall r doc, Shown r -> text r = inr doc ->
    exists v, getFullURL (action (parseFormField doc)) (url r) = inr v.

Lemma captcha_entered_inv (st : State) :
  Inv (world st) -> Inv (world (captcha_entered st)).
Proof.
  intros Hw. unfold captcha_entered.
  destruct (captchaValidate (self st)); [apply reject_harmless |]; exact Hw.
Qed.

Lemma captcha_entered_count (st : State) :
  captchaAttempts (self (captcha_entered st)) =
  (captchaAttempts (self st) + pending_now st)%N.
Proof.
  unfold captcha_entered, pending_now.
  destruct (captchaValidate (self st)); cbn; lia.
Qed.

Lemma captcha_turn (response : Response) (st : State) :
  Inv (world st) -> Shown response ->
  exists response' st',
    turn response st = (Normal (Continue response'), st') /\
    Inv (world st') /\ Shown response' /\
    pending_now st' = 1%N /\
    captchaAttempts (self st') = (captchaAttempts (self st) + pending_now st)%N.
Proof.
  intros Hw Hs. pose proof (shown_captcha _ Hs) as Hp.
  unfold is_captcha_page in Hp.
  apply andb_prop in Hp. destruct Hp as [Hp Htext].
  apply andb_prop in Hp. destruct Hp as [Hp H4].
  apply andb_prop in Hp. destruct Hp as [Hp H3].
  apply andb_prop in Hp. destruct Hp as [Hp H2].
  apply andb_prop in Hp. destruct Hp as [Hb H1].
  apply negb_true_iff in Hb, H1, H2, H3.
  destruct (text response) as [e | doc] eqn:Ht; [discriminate |].
  unfold turn. rewrite Hb, H1, H2, H3, H4.
  unfold bind at 1, load, bind at 1, log. rewrite Ht. cbn [lift ret].
  unfold bind at 1. rewrite captcha_form_steps.
  set (st_loaded := Build_State _ _ _).
  assert (Hw0 : Inv (world (captcha_entered st_loaded)))
    by (apply captcha_entered_inv; exact Hw).
  pose proof (captcha_entered_count st_loaded) as Hcount.
  destruct (captcha_answered _ (captcha_payload doc) Hw0)
    as (w1 & key & h & -> & Hw1).
  destruct (url_made response doc Hs Ht) as (v & ->).
  cbv zeta.
  destruct (fetch_captcha w1 POST (searchParams_set v (js "utf8") (js "1"))
              (Some (<[js "captcha_key" := key]> (fields (parseFormField doc))))
              Hw1) as (w2 & r & -> & Hw2 & Hr).
  cbn [fst snd]. unfold ret.
  eexists r, _. split; [reflexivity |].
  unfold after, pending_now.
  cbn [self world trace captchaValidate captchaAttempts with_captchaValidate].
  repeat split; try assumption.
Qed.

Lemma captcha_loop_goes_on (fuel : nat) :
  forall (response : Response) (st : State),
    Inv (world st) -> Shown response ->
    exists response' st',
      loop fuel response st = (StillRunning response', st') /\
      (captchaAttempts (self st) + N.of_nat fuel + pending_now st
       <= captchaAttempts (self st') + 1)%N.
Proof.
  induction fuel as [| fuel IH]; intros response st Hw Hp.
  - exists response, st. split; [reflexivity |].
    unfold pending_now. destruct (captchaValidate (self st)); lia.
  - rewrite loop_turn.
    destruct (captcha_turn response st Hw Hp)
      as (r1 & st1 & -> & Hw1 & Hp1 & Hpend & Hcount).
    destruct (IH r1 st1 Hw1 Hp1) as (r2 & st2 & Hloop & Hle).
    exists r2, st2. split; [exact Hloop |].
    rewrite Hpend, Hcount in Hle. lia.
Qed.

(** C4, as the code has it.  The loop has no bound and the captcha count
    has no limit: while the portal answers every request with a captcha
    page and the callback service answers every captcha, [run] neither
    returns nor throws.  After any number of turns it is still running, and
    the count of rejected captchas has kept up with the turns. *)
Theorem captcha_run_unbounded (fuel : nat) (redirectUri : jsstring)
    (o : Options) (w : World) :
  Inv w ->
  exists response st',
    run fuel redirectUri (initial o w) = (StillRunning response, st') /\
    (N.of_nat fuel <= captchaAttempts (self st') + 1)%N.
Proof.
  intros Hw. unfold run, fetch, call. cbn [world initial self trace].
  destruct (fetch_captcha w GET redirectUri None Hw) as (w' & r & -> & Hw' & Hr).
  cbn [lift ret].
  match goal with |- context [loop fuel r ?st0] =>
    destruct (captcha_loop_goes_on fuel r st0 Hw' Hr) as (r' & st' & -> & Hle)
  end.
  exists r', st'. split; [reflexivity |].
  unfold pending_now in Hle. cbn in Hle. lia.
Qed.

End Unbounded.

(* ===================================================================== *)
(** ** Runs *)
(* ===================================================================== *)

Section Runs.

Import Sample.
#[local] Existing Instance platform.

(** The blank page with a token and a user. *)
Lemma run_blank_page_witness :
  includes (url granted_page) CALLBACK_BLANK = true /\
  exists result,
    loop 1 granted_page (fresh dead_portal no_options) =
      (Returned result, fresh dead_portal no_options) /\
    token result = Some (js "tok123") /\
    user result = Some (Some 42%N).
Proof.
  split; [reflexivity |].
  destruct (@run_blank_page platform (portal dead_portal) 0%nat granted_page
              (fresh dead_portal no_options) eq_refl)
    as [_ H].
  destruct (H eq_refl) as (result & Hl & Ht & Hu & _).
  exists result. split; [exact Hl |]. split.
  - rewrite Ht. reflexivity.
  - rewrite (Hu (js "42") eq_refl). reflexivity.
Defined.

Example run_granted :
  fst (run_from granted_portal no_options 1) =
  Returned (@Build_AuthResult platform (Some (Some 42%N)) (Some (js "tok123"))).
Proof. vm_compute. reflexivity. Qed.

Example run_granted_no_user :
  fst (run_from granted_no_user_portal no_options 1) =
  Returned (@Build_AuthResult platform None (Some (js "tok123"))).
Proof. vm_compute. reflexivity. Qed.

Example run_denied :
  fst (run_from denied_portal no_options 1) =
  Raised (AuthError
            {| message := js "Failed passed grant access: User denied";
               code := AUTHORIZATION_FAILED;
               pageHtml := None |}).
Proof. vm_compute. reflexivity. Qed.

Lemma run_unknown_page_witness :
  text unknown_page = inr the_page /\
  includes (url unknown_page) CALLBACK_BLANK = false /\
  includes (url unknown_page) ACTION_AUTH_CODE = false /\
  includes (url unknown_page) ACTION_SECURITY_CODE = false /\
  includes (url unknown_page) ACTION_VALIDATE = false /\
  includes (url unknown_page) ACTION_CAPTCHA = false /\
  fst (loop 1 unknown_page (fresh dead_portal no_options)) =
    Raised (AuthError {| message := js "Account verification failed";
                         code := AUTHORIZATION_FAILED;
                         pageHtml := None |}).
Proof.
  repeat (split; [reflexivity |]).
  rewrite (@run_unknown_page platform (portal dead_portal) 0%nat unknown_page
             the_page (fresh dead_portal no_options)
             eq_refl eq_refl eq_refl eq_refl eq_refl eq_refl).
  reflexivity.
Defined.

(** The blank-page marker wins over act=captcha: nothing is loaded. *)
Lemma turn_order_witness :
  includes (url granted_captcha_page) CALLBACK_BLANK = true /\
  includes (url granted_captcha_page) ACTION_CAPTCHA = true /\
  snd (turn granted_captcha_page (fresh captcha_portal no_options)) =
    fresh captcha_portal no_options.
Proof.
  split; [reflexivity |]. split; [reflexivity |].
  exact (proj2 (proj1 (@turn_order platform (portal captcha_portal)
                         granted_captcha_page
                         (fresh captcha_portal no_options)) eq_refl)).
Defined.

(** The phone "+71234567890" under labels of two characters each. *)
Lemma security_code_posted_witness :
  security_number (options (self (fresh welcome_portal phone_options))) =
    inr (@PhoneString platform (js "+71234567890")) /\
  getFullURL (action (parseFormField the_page)) (url security_page) =
    inr (js "https://m.vk.com/login") /\
  exists body w' r,
    fetchCookie (world (fresh welcome_portal phone_options)) POST
      (js "https://m.vk.com/login") (Some body) = (w', r) /\
    body !! js "code" = Some (js "2345678").
Proof.
  split; [reflexivity |]. split; [reflexivity |].
  destruct (@security_code_posted platform (portal welcome_portal)
              security_page the_page (fresh welcome_portal phone_options)
              (@PhoneString platform (js "+71234567890"))
              (js "https://m.vk.com/login") eq_refl eq_refl)
    as (body & w' & r & Hf & _ & Hc & _).
  exists body, w', r. split; [exact Hf |].
  rewrite Hc. vm_compute. reflexivity.
Defined.

(** C7, as the specification words it, fails: with no phone and an e-mail
    address for a login the message thrown is not the one quoted there (it
    begins with a capital letter). *)
Lemma security_missing_phone_message :
  phone email_options = None /\
  (exists l, login email_options = Some l /\ includes l (js "@") = true) /\
  fst (processSecurityForm security_page the_page
         (fresh welcome_portal email_options)) <>
    Throw (AuthError
             {| message :=
                  js "missing phone number in the phone or login field";
                code := INVALID_PHONE_NUMBER;
                pageHtml := None |}).
Proof.
  split; [reflexivity |]. split.
  - eexists. split; reflexivity.
  - vm_compute. intros H. discriminate H.
Qed.

Lemma security_missing_phone_witness :
  phone (options (self (fresh welcome_portal email_options))) = None /\
  (exists l, login (options (self (fresh welcome_portal email_options)))
             = Some l /\ includes l (js "@") = true) /\
  processSecurityForm security_page the_page
    (fresh welcome_portal email_options) =
    (Throw (AuthError
              {| message :=
                   js "Missing phone number in the phone or login field";
                 code := INVALID_PHONE_NUMBER;
                 pageHtml := None |}),
     fresh welcome_portal email_options).
Proof.
  split; [reflexivity |]. split.
  - eexists. split; reflexivity.
  - refine (proj1 (@security_missing_phone platform (portal welcome_portal)
                     security_page the_page
                     (fresh welcome_portal email_options)) eq_refl _).
    right. eexists. split; reflexivity.
Defined.

(** The code is accepted: the response of the POST is what the handler
    returns. *)
Lemma security_response_checked_witness :
  security_number (options (self (fresh welcome_portal phone_options))) =
    inr (@PhoneString platform (js "+71234567890")) /\
  getFullURL (action (parseFormField the_page)) (url security_page) =
    inr (js "https://m.vk.com/login") /\
  includes (url welcome_page) ACTION_SECURITY_CODE = false /\
  fst (processSecurityForm security_page the_page
         (fresh welcome_portal phone_options)) = Normal welcome_page.
Proof.
  split; [reflexivity |]. split; [reflexivity |]. split; [reflexivity |].
  refine (proj1 (proj2
    (@security_response_checked platform (portal welcome_portal)
       security_page the_page (fresh welcome_portal phone_options)
       (@PhoneString platform (js "+71234567890"))
       (js "https://m.vk.com/login")
       {| fetched := 1; asked := 0 |} welcome_page
       eq_refl eq_refl eq_refl)) eq_refl).
Defined.

(** The code is refused: the portal shows the form again. *)
Example security_code_refused :
  fst (processSecurityForm security_page the_page
         (fresh security_again_portal phone_options)) =
  Throw (AuthError {| message := js "Invalid phone number";
                      code := INVALID_PHONE_NUMBER;
                      pageHtml := None |}).
Proof. vm_compute. reflexivity. Qed.

(** The portal is down when the two-factor code is posted. *)
Lemma twoFactor_post_failure_witness :
  twoFactorValidate (self (fresh dead_portal no_options)) = None /\
  (twoFactorAttempts (self (fresh dead_portal no_options))
   < TWO_FACTOR_ATTEMPTS)%N /\
  rejections
    (trace (snd (processTwoFactorForm authcheck_page the_page
                   (fresh dead_portal no_options)))) =
    [(0%N, ForeignError (js "ECONNRESET"))] /\
  fst (processTwoFactorForm authcheck_page the_page
         (fresh dead_portal no_options)) =
    Throw (ForeignError (js "ECONNRESET")).
Proof.
  split; [reflexivity |]. split; [reflexivity |].
  rewrite (@twoFactor_post_failure platform (portal dead_portal)
             authcheck_page the_page (fresh dead_portal no_options)
             (js "000000") 0%N
             {| fetched := 0; asked := 1 |} {| fetched := 1; asked := 1 |}
             (js "https://m.vk.com/login") (ForeignError (js "ECONNRESET"))
             eq_refl eq_refl eq_refl eq_refl eq_refl).
  split; reflexivity.
Defined.

(** C2, as the specification words it, fails: after a captcha has been
    answered, a page [run] does not know makes it throw while the handle of
    that captcha is still outstanding; nothing was rejected. *)
Lemma run_throws_with_handle_outstanding :
  fst (run_from captcha_then_unknown no_options 2) =
    Raised (AuthError {| message := js "Account verification failed";
                         code := AUTHORIZATION_FAILED;
                         pageHtml := None |}) /\
  outstanding (trace (snd (run_from captcha_then_unknown no_options 2))) =
    [0%N] /\
  rejections (trace (snd (run_from captcha_then_unknown no_options 2))) = [].
Proof. vm_compute. repeat split; reflexivity. Qed.

(** The POST of the captcha form has no [try] around it: when it fails the
    error goes up and the handle just stored stays outstanding. *)
Example captcha_post_failure :
  fst (run_from captcha_then_reset no_options 1) =
    Raised (ForeignError (js "ECONNRESET")) /\
  outstanding (trace (snd (run_from captcha_then_reset no_options 1))) =
    [0%N] /\
  rejections (trace (snd (run_from captcha_then_reset no_options 1))) = [].
Proof. vm_compute. repeat split; reflexivity. Qed.

(** The same failure on the two-factor form. *)
Example twoFactor_post_failure_run :
  fst (run_from authcheck_then_reset no_options 1) =
    Raised (ForeignError (js "ECONNRESET")) /\
  outstanding (trace (snd (run_from authcheck_then_reset no_options 1))) =
    [] /\
  rejections (trace (snd (run_from authcheck_then_reset no_options 1))) =
    [(0%N, ForeignError (js "ECONNRESET"))].
Proof. vm_compute. repeat split; reflexivity. Qed.

Lemma captcha_portal_goes_on (fuel : nat) :
  exists response st',
    run_from captcha_portal no_options fuel = (StillRunning response, st').
Proof.
  unfold run_from, run, fetch, call. cbn [world initial self trace].
  change (@fetchCookie platform (portal captcha_portal) start GET entry_url None)
    with ({| fetched := 1; asked := 0 |}, @inr jserror _ captcha_page).
  cbn [lift ret].
  match goal with |- context [loop fuel captcha_page ?st0] =>
    destruct (@captcha_loop_goes_on platform (portal captcha_portal)
                (fun _ => True) (fun r => r = captcha_page)) with
      (fuel := fuel) (response := captcha_page) (st := st0)
      as (r' & st' & Hloop & _)
  end.
  - intros w m u b _. eexists _, _. split; [reflexivity |]. split; [exact I |].
    reflexivity.
  - intros r ->. reflexivity.
  - intros w p _. eexists _, _, _. split; [reflexivity | exact I].
  - intros w h e _. exact I.
  - intros r doc -> [= <-]. eexists. reflexivity.
  - exact I.
  - reflexivity.
  - exists r', st'. exact Hloop.
Qed.

(** C4, as the specification words it, fails: on a portal that shows a
    captcha after every answer, no number of turns ends the run. *)
Lemma run_never_finishes :
  ~ exists fuel, finished (fst (run_from captcha_portal no_options fuel)) = true.
Proof.
  intros [fuel H].
  destruct (captcha_portal_goes_on fuel) as (r & st' & Hrun).
  rewrite Hrun in H. discriminate H.
Qed.

Lemma captcha_run_unbounded_witness :
  (forall w m u b, True ->
     exists w' r, @fetchCookie platform (portal captcha_portal) w m u b
                  = (w', inr r) /\ True /\ r = captcha_page) /\
  (forall r, r = captcha_page -> is_captcha_page r = true) /\
  (forall w p, True ->
     exists w' key h, @processingCaptcha platform (portal captcha_portal) w p
                      = (w', inr (key, h)) /\ True) /\
  (forall r doc, r = captcha_page -> text r = inr doc ->
     exists v, getFullURL (action (parseFormField doc)) (url r) = inr v) /\
  exists response st',
    run_from captcha_portal no_options 7 = (StillRunning response, st') /\
    (7 <= captchaAttempts (self st') + 1)%N.
Proof.
  assert (H1 : forall w m u b, True ->
     exists w' r, @fetchCookie platform (portal captcha_portal) w m u b
                  = (w', inr r) /\ True /\ r = captcha_page).
  { intros w m u b _. eexists _, _. split; [reflexivity |].
    split; [exact I | reflexivity]. }
  assert (H2 : forall r : @Response platform,
                 r = captcha_page -> is_captcha_page r = true).
  { intros r ->. reflexivity. }
  assert (H3 : forall w p, True ->
     exists w' key h, @processingCaptcha platform (portal captcha_portal) w p
                      = (w', inr (key, h)) /\ True).
  { intros w p _. eexists _, _, _. split; [reflexivity | exact I]. }
  assert (H4 : forall (r : @Response platform) doc,
     r = captcha_page -> text r = inr doc ->
     exists v, getFullURL (action (parseFormField doc)) (url r) = inr v).
  { intros r doc -> [= <-]. eexists. reflexivity. }
  split; [exact H1 |]. split; [exact H2 |]. split; [exact H3 |].
  split; [exact H4 |].
  exact (@captcha_run_unbounded platform (portal captcha_portal)
           (fun _ => True) (fun r => r = captcha_page)
           H1 H2 H3 (fun _ _ _ _ => I) H4
           7%nat entry_url no_options start I).
Defined.

(** C1: the portal shows the two-factor form again after each of three
    codes.  The fourth turn does not throw: a fourth code is asked for and
    posted.  Nothing has been rejected, nothing counted, and the four
    handles are all outstanding. *)
Theorem twoFactor_fourth_code_asked :
  fst (run_from authcheck_portal no_options 4) = StillRunning authcheck_page /\
  requests (trace (snd (run_from authcheck_portal no_options 4))) = 4%nat /\
  rejections (trace (snd (run_from authcheck_portal no_options 4))) = [] /\
  twoFactorValidate (self (snd (run_from authcheck_portal no_options 4)))
    = None /\
  twoFactorAttempts (self (snd (run_from authcheck_portal no_options 4)))
    = 0%N /\
  fst (run_from authcheck_portal no_options 40) = StillRunning authcheck_page.
Proof. vm_compute. repeat split; reflexivity. Qed.

(** C3: two turns on the two-factor form leave two handles of the same
    kind outstanding: the second code was asked for without the first
    handle being rejected. *)
Theorem twoFactor_two_handles_outstanding :
  fst (run_from authcheck_portal no_options 2) = StillRunning authcheck_page /\
  outstanding_twoFactor
    (trace (snd (run_from authcheck_portal no_options 2))) = [0%N; 1%N] /\
  rejections (trace (snd (run_from authcheck_portal no_options 2))) = [].
Proof. vm_compute. repeat split; reflexivity. Qed.

(** On the captcha form the same two turns leave one: the first handle is
    rejected before the second captcha is asked about. *)
Example captcha_one_handle_outstanding :
  fst (run_from captcha_portal no_options 2) = StillRunning captcha_page /\
  outstanding (trace (snd (run_from captcha_portal no_options 2))) = [1%N] /\
  rejections (trace (snd (run_from captcha_portal no_options 2))) =
    [(0%N, stale_captcha)].
Proof. vm_compute. repeat split; reflexivity. Qed.

End Runs.

(* ===================================================================== *)
(** ** What the handlers call *)
(* ===================================================================== *)

Section Emits.

Context {P : Platform} {S : Services}.
Variable Pev : Event -> Prop.

Lemma emits_nothing {A} (m : M A) :
  (forall st, snd (m st) = st) -> emits Pev m.
Proof.
  intros H st. exists []. rewrite H, app_nil_r. split; [reflexivity | constructor].
Qed.

Lemma emits_ret {A} (a : A) : emits Pev (ret a).
Proof. apply emits_nothing. reflexivity. Qed.

Lemma emits_throw {A} (e : jserror) : emits Pev (throw (A := A) e).
Proof. apply emits_nothing. reflexivity. Qed.

Lemma emits_lift {A} (r : jserror + A) : emits Pev (lift r).
Proof. destruct r; [apply emits_throw | apply emits_ret]. Qed.

Lemma emits_this : emits Pev this.
Proof. apply emits_nothing. reflexivity. Qed.

Lemma emits_set_this (f : AccountVerification -> AccountVerification) :
  emits Pev (set_this f).
Proof.
  intros st. exists []. cbn. rewrite app_nil_r. split; [reflexivity | constructor].
Qed.

Lemma emits_log (ev : Event) : Pev ev -> emits Pev (log ev).
Proof. intros H st. exists [ev]. split; [reflexivity | repeat constructor; exact H]. Qed.

Lemma emits_reject (h : Handle) (e : jserror) :
  Pev (EvReject h e) -> emits Pev (reject h e).
Proof. intros H st. exists [EvReject h e]. split; [reflexivity | repeat constructor; exact H]. Qed.

Lemma emits_call {A} (f : World -> World * (jserror + A))
    (ev : jserror + A -> Event) :
  (forall r, Pev (ev r)) -> emits Pev (call f ev).
Proof.
  intros H st. unfold call.
  destruct (f (world st)) as [w r]. exists [ev r].
  split; [destruct r; reflexivity | repeat constructor; apply H].
Qed.

Lemma emits_fetch (m : Method) (u : jsstring) (body : option Fields) :
  (forall r, Pev (EvFetch m u body r)) -> emits Pev (fetch m u body).
Proof. apply emits_call. Qed.

Lemma emits_bind {A B} (m : M A) (k : A -> M B) :
  emits Pev m -> (forall a, emits Pev (k a)) -> emits Pev (bind m k).
Proof.
  intros Hm Hk st. unfold bind.
  destruct (Hm st) as (evs & Ht & Hp).
  destruct (m st) as [[a | e] st']; cbn [snd] in *.
  - destruct (Hk a st') as (evs' & Ht' & Hp').
    exists (evs ++ evs'). rewrite Ht', Ht, app_assoc.
    split; [reflexivity | apply Forall_app; split; assumption].
  - exists evs. split; assumption.
Qed.

Lemma emits_try_catch {A} (m : M A) (h : jserror -> M A) :
  emits Pev m -> (forall e, emits Pev (h e)) -> emits Pev (try_catch m h).
Proof.
  intros Hm Hh st. unfold try_catch.
  destruct (Hm st) as (evs & Ht & Hp).
  destruct (m st) as [[a | e] st']; cbn [snd] in *.
  - exists evs. split; assumption.
  - destruct (Hh e st') as (evs' & Ht' & Hp').
    exists (evs ++ evs'). rewrite Ht', Ht, app_assoc.
    split; [reflexivity | apply Forall_app; split; assumption].
Qed.

End Emits.

Ltac emits_steps :=
  repeat first
    [ apply emits_bind; [| intros ?]
    | apply emits_try_catch; [| intros ?]
    | match goal with |- emits _ (let '(_, _) := ?p in _) => destruct p end
    | apply emits_ret | apply emits_throw | apply emits_lift | apply emits_this
    | apply emits_set_this
    | apply emits_log; exact I
    | apply emits_reject; exact I
    | apply emits_call; intros ?; exact I
    | apply emits_fetch; intros ?; exact I ].

Section Silent.

Context {P : Platform} {S : Services}.

Lemma outstanding_app (t evs : list Event) :
  outstanding (t ++ evs) = fold_left outstanding_step evs (outstanding t).
Proof. unfold outstanding. apply fold_left_app. Qed.

Lemma requests_app (t evs : list Event) :
  requests (t ++ evs) = (requests t + requests evs)%nat.
Proof. unfold requests. rewrite List.filter_app, List.length_app. reflexivity. Qed.

Lemma captcha_answers_app (t evs : list Event) :
  captcha_answers (t ++ evs) = (captcha_answers t + captcha_answers evs)%nat.
Proof.
  unfold captcha_answers. rewrite List.filter_app, List.length_app. reflexivity.
Qed.

Lemma issued_app (t evs : list Event) :
  issued (t ++ evs) = issued t ++ issued evs.
Proof. unfold issued. apply flat_map_app. Qed.

Lemma rejects_issued_app (t evs : list Event) :
  forall seen,
    rejects_issued seen (t ++ evs) =
    rejects_issued seen t && rejects_issued (rev (issued t) ++ seen) evs.
Proof.
  induction t as [| ev t IH]; intros seen.
  - reflexivity.
  - cbn [app rejects_issued].
    destruct ev as [| | | [e | [c h]] | p [e | [k h]] | h e];
      cbn [issued flat_map app rev]; fold (issued t); rewrite ?IH.
    + reflexivity.
    + reflexivity.
    + reflexivity.
    + reflexivity.
    + rewrite <- app_assoc. reflexivity.
    + reflexivity.
    + rewrite <- app_assoc. reflexivity.
    + rewrite andb_assoc. reflexivity.
Qed.

(** Calls that are no traffic with the callback service change none of the
    counts. *)
Lemma silent_calls (t evs : list Event) :
  Forall is_silent evs ->
  requests (t ++ evs) = requests t /\
  rejections (t ++ evs) = rejections t /\
  outstanding (t ++ evs) = outstanding t /\
  issued (t ++ evs) = issued t /\
  captcha_answers (t ++ evs) = captcha_answers t /\
  (forall seen, rejects_issued seen evs = true).
Proof.
  intros H.
  rewrite requests_app, rejections_app, outstanding_app, issued_app,
    captcha_answers_app.
  induction H as [| ev evs Hev _ IH].
  - cbn. rewrite !Nat.add_0_r, !app_nil_r. repeat split; reflexivity.
  - destruct IH as (H1 & H2 & H3 & H4 & H5 & H6).
    destruct ev; try contradiction; cbn [fold_left outstanding_step];
      (repeat split; [exact H1 | exact H2 | exact H3 | exact H4 | exact H5
                     | intros seen; apply H6]).
Qed.

End Silent.

(* ===================================================================== *)
(** ** The forms that need no one's answer *)
(* ===================================================================== *)

Section Quiet.

Context {P : Platform} {S : Services}.

Lemma keeps_self {A} (m : M A) :
  (forall Q, keeps Q m) -> forall st, self (snd (m st)) = self st.
Proof. intros H st. apply (H (fun a => a = self st) st). reflexivity. Qed.

Lemma processSecurityForm_silent (response : Response) (doc : Cheerio) :
  emits is_silent (processSecurityForm response doc).
Proof.
  unfold processSecurityForm, parse_form. emits_steps.
  destruct (includes _ _); emits_steps.
Qed.

Lemma processValidateForm_silent (response : Response) (doc : Cheerio) :
  emits is_silent (processValidateForm response doc).
Proof. unfold processValidateForm. emits_steps. Qed.

(** X1. The phone-number form is dealt with without the callback service
    and without a change to the instance: whatever comes of it (a response,
    a refusal, an error of the portal), no code or answer has been asked
    for, no handle rejected, and the fields are as they were. *)
Theorem security_form_asks_no_one (response : Response) (doc : Cheerio)
    (st : State) :
  let st' := snd (processSecurityForm response doc st) in
  self st' = self st /\
  requests (trace st') = requests (trace st) /\
  rejections (trace st') = rejections (trace st) /\
  outstanding (trace st') = outstanding (trace st).
Proof.
  intros st'. split.
  - apply keeps_self. intros Q. apply processSecurityForm_keeps.
  - destruct (processSecurityForm_silent response doc st) as (evs & Ht & Hs).
    subst st'. rewrite Ht.
    destruct (silent_calls (trace st) evs Hs) as (H1 & H2 & H3 & _).
    repeat split; assumption.
Qed.

(** X2. The form that binds a phone makes one request at most: a GET,
    without a body, of the link under #activation_wrap, made absolute by
    [getFullURL].  What the GET gives is what the handler gives, response
    or error.  When the link cannot be made into a URL the error of
    [getFullURL] goes up and nothing is requested.  The callback service
    is not asked and the instance not changed. *)
Theorem validate_form_one_get (response : Response) (doc : Cheerio)
    (st : State) :
  let result := processValidateForm response doc st in
  self (snd result) = self st /\
  requests (trace (snd result)) = requests (trace st) /\
  rejections (trace (snd result)) = rejections (trace st) /\
  match getFullURL (activation_wrap_href doc) (url response) with
  | inl e => result = (Throw e, st)
  | inr u =>
      let sent := fetchCookie (world st) GET u None in
      result =
        (match snd sent with inl e => Throw e | inr r => Normal r end,
         after st (fst sent) [EvFetch GET u None (snd sent)])
  end.
Proof.
  intros result. split; [| split; [| split]].
  - apply keeps_self. intros Q. apply processValidateForm_keeps.
  - destruct (processValidateForm_silent response doc st) as (evs & Ht & Hs).
    subst result. rewrite Ht. apply (silent_calls (trace st) evs Hs).
  - destruct (processValidateForm_silent response doc st) as (evs & Ht & Hs).
    subst result. rewrite Ht. apply (silent_calls (trace st) evs Hs).
  - subst result. unfold processValidateForm, bind.
    destruct (getFullURL _ _) as [e | u]; [reflexivity |].
    cbn [lift ret]. unfold fetch, call.
    destruct (fetchCookie (world st) GET u None) as [w [e | r]]; reflexivity.
Qed.

End Quiet.

(* ===================================================================== *)
(** ** The number and the code cut out of it *)
(* ===================================================================== *)

Section Number.

Context {P : Platform} {S : Services}.

Lemma trimStart_all (ws : jsstring) :
  forallb isWhiteSpace ws = true -> trimStart ws = [].
Proof.
  induction ws as [| c ws IH]; [reflexivity |].
  cbn [forallb trimStart]. intros H. apply andb_prop in H. destruct H as [-> H].
  apply IH, H.
Qed.

Lemma trimStart_ws_app (ws s : jsstring) :
  forallb isWhiteSpace ws = true -> trimStart (ws ++ s) = trimStart s.
Proof.
  induction ws as [| c ws IH]; [reflexivity |].
  cbn [forallb app trimStart]. intros H. apply andb_prop in H.
  destruct H as [-> H]. apply IH, H.
Qed.

Lemma trimStart_app_stop (x y : jsstring) (c : N) :
  isWhiteSpace c = false ->
  trimStart (x ++ c :: y) = trimStart x ++ c :: y.
Proof.
  intros Hc. induction x as [| d x IH].
  - cbn [app trimStart]. rewrite Hc. reflexivity.
  - cbn [app trimStart]. destruct (isWhiteSpace d); [exact IH | reflexivity].
Qed.

Lemma trimStart_app_ws (s ws : jsstring) :
  forallb isWhiteSpace ws = true ->
  trimStart (rev (trimStart (s ++ ws))) = trimStart (rev (trimStart s)).
Proof.
  intros Hws. induction s as [| c s IH].
  - cbn [app]. rewrite (trimStart_all ws Hws). reflexivity.
  - cbn [app trimStart]. destruct (isWhiteSpace c); [exact IH |].
    change (c :: s ++ ws) with ((c :: s) ++ ws).
    rewrite rev_app_distr. apply trimStart_ws_app.
    rewrite forallb_forall in *. intros x Hx. apply Hws, in_rev, Hx.
Qed.

Lemma trim_ws_around (ws1 s ws2 : jsstring) :
  forallb isWhiteSpace ws1 = true -> forallb isWhiteSpace ws2 = true ->
  trim (ws1 ++ s ++ ws2) = trim s.
Proof.
  intros H1 H2. unfold trim.
  rewrite (trimStart_ws_app ws1 _ H1). f_equal.
  apply trimStart_app_ws, H2.
Qed.

Lemma trim_stop (c : N) (s : jsstring) :
  isWhiteSpace c = false -> trim (c :: s) = c :: trimEnd s.
Proof.
  intros Hc. unfold trim, trimEnd. cbn [trimStart]. rewrite Hc.
  cbn [rev]. rewrite (trimStart_app_stop _ [] c Hc).
  rewrite rev_app_distr. reflexivity.
Qed.

(** X3. White space around the number does not count: a [phone] (or
    [login]) string gives the same number with and without it. *)
Theorem number_ignores_white_space (ws1 s ws2 : jsstring) :
  forallb isWhiteSpace ws1 = true -> forallb isWhiteSpace ws2 = true ->
  normalize_number (PhoneString (ws1 ++ s ++ ws2)) =
  normalize_number (PhoneString s).
Proof.
  intros H1 H2. unfold normalize_number.
  rewrite (trim_ws_around ws1 s ws2 H1 H2). reflexivity.
Qed.

(** X4. The international prefix may be written [+] or [00]: both are
    taken off, once, and what follows them is the number (up to white
    space at its end). *)
Theorem number_plus_or_00 (s : jsstring) :
  normalize_number (PhoneString (plus :: s)) = trimEnd s /\
  normalize_number (PhoneString (zero :: zero :: s)) = trimEnd s.
Proof.
  unfold normalize_number. split.
  - rewrite (trim_stop plus s eq_refl). reflexivity.
  - rewrite (trim_stop zero (zero :: s) eq_refl).
    unfold trimEnd at 1. cbn [rev].
    rewrite (trimStart_app_stop _ [] zero eq_refl), rev_app_distr.
    reflexivity.
Qed.

(** X5. When the last label is no longer than the number, the code is the
    number without as many units in front as the first label counts and
    without as many at the back as the last label counts; when the two
    labels together cover the number, the code is empty. *)
Theorem security_code_middle (number : jsstring) (doc : Cheerio) :
  let prefix :=
    Z.to_nat (length (replaceFirstPlus (trim (field_prefix_first_text doc)))) in
  let postfix := Z.to_nat (length (trim (field_prefix_last_text doc))) in
  (postfix <= List.length number)%nat ->
  security_code number doc =
    firstn (List.length number - prefix - postfix) (skipn prefix number) /\
  List.length (security_code number doc) =
    (List.length number - prefix - postfix)%nat.
Proof.
  intros prefix postfix Hle.
  assert (Heq : security_code number doc =
    firstn (List.length number - prefix - postfix) (skipn prefix number)).
  { unfold security_code, slice, relativeIndex.
    pose proof (length_nonneg (replaceFirstPlus (trim (field_prefix_first_text doc)))).
    pose proof (length_nonneg (trim (field_prefix_last_text doc))).
    destruct (Z.ltb_spec (length (replaceFirstPlus
                (trim (field_prefix_first_text doc)))) 0); [lia |].
    destruct (Z.ltb_spec (length number
                - length (trim (field_prefix_last_text doc))) 0).
    { unfold length in *. lia. }
    destruct (Nat.le_gt_cases prefix (List.length number)) as [Hp | Hp].
    - f_equal; [| f_equal]; subst prefix postfix; unfold length in *; lia.
    - rewrite (skipn_all2 number) by (subst prefix; unfold length in *; lia).
      rewrite (skipn_all2 number) by lia.
      rewrite !firstn_nil. reflexivity. }
  split; [exact Heq |].
  rewrite Heq, length_firstn, length_skipn. lia.
Qed.

(** X6. When the last label is longer than the number, the end index of
    the slice is negative and counts from the end of the number: the code
    stops that many units before the end as the label is longer than the
    number. *)
Theorem security_code_wraps (number : jsstring) (doc : Cheerio) :
  let prefix :=
    Z.to_nat (length (replaceFirstPlus (trim (field_prefix_first_text doc)))) in
  let postfix := Z.to_nat (length (trim (field_prefix_last_text doc))) in
  (List.length number < postfix)%nat ->
  security_code number doc =
    firstn (List.length number - (postfix - List.length number) - prefix)
           (skipn prefix number).
Proof.
  intros prefix postfix Hlt.
  unfold security_code, slice, relativeIndex.
  pose proof (length_nonneg (replaceFirstPlus (trim (field_prefix_first_text doc)))).
  pose proof (length_nonneg (trim (field_prefix_last_text doc))).
  destruct (Z.ltb_spec (length (replaceFirstPlus
              (trim (field_prefix_first_text doc)))) 0); [lia |].
  destruct (Z.ltb_spec (length number
              - length (trim (field_prefix_last_text doc))) 0).
  2: { subst postfix. unfold length in *. lia. }
  destruct (Nat.le_gt_cases prefix (List.length number)) as [Hp | Hp].
  - f_equal; [| f_equal]; subst prefix postfix; unfold length in *; lia.
  - rewrite (skipn_all2 number) by (subst prefix; unfold length in *; lia).
    rewrite (skipn_all2 number) by lia.
    rewrite !firstn_nil. reflexivity.
Qed.

End Number.

(* ===================================================================== *)
(** ** The forms that need an answer *)
(* ===================================================================== *)

Section Forms.

Context {P : Platform} {S : Services}.

(** [processTwoFactorForm], [if] by [if]. *)
Lemma processTwoFactorForm_unfold (response : Response) (doc : Cheerio)
    (st : State) :
  processTwoFactorForm response doc st =
  let st1 := twoFactor_entered doc st in
  if (TWO_FACTOR_ATTEMPTS <=? twoFactorAttempts (self st1))%N
  then (Throw twoFactor_limit, st1)
  else twoFactor_ask response doc st1.
Proof.
  unfold processTwoFactorForm, twoFactor_entered.
  unfold bind at 1, this at 1.
  destruct (twoFactorValidate (self st)) as [h |].
  - unfold bind at 1, bind at 1, reject at 1, incr_twoFactorAttempts, set_this.
    cbn [self world trace]. unfold bind at 1, this at 1. cbn [self].
    destruct (_ <=? _)%N; reflexivity.
  - unfold bind at 1, ret at 1. unfold bind at 1, this at 1.
    destruct (_ <=? _)%N; reflexivity.
Qed.

(** The asking and posting of [processTwoFactorForm], call by call. *)
Lemma twoFactor_ask_total (response : Response) (doc : Cheerio) (st : State) :
  twoFactor_ask response doc st =
  let asked := processingTwoFactor (world st) in
  match snd asked with
  | inl e =>
      (Throw e,
       after st (fst asked) [EvParseFormField; EvProcessingTwoFactor (inl e)])
  | inr (code, h) =>
      let body := <[js "code" := code]> (fields (parseFormField doc)) in
      match getFullURL (action (parseFormField doc)) (url response) with
      | inl e =>
          (Throw e,
           after st (validate_reject (fst asked) h e)
             [EvParseFormField; EvProcessingTwoFactor (inr (code, h));
              EvReject h e])
      | inr u =>
          let sent := fetchCookie (fst asked) POST u (Some body) in
          match snd sent with
          | inl e =>
              (Throw e,
               after st (validate_reject (fst sent) h e)
                 [EvParseFormField; EvProcessingTwoFactor (inr (code, h));
                  EvFetch POST u (Some body) (inl e); EvReject h e])
          | inr r =>
              (Normal r,
               after st (fst sent)
                 [EvParseFormField; EvProcessingTwoFactor (inr (code, h));
                  EvFetch POST u (Some body) (inr r)])
          end
      end
  end.
Proof.
  unfold twoFactor_ask.
  unfold bind at 1, parse_form, bind at 1, log, ret.
  unfold bind at 1, call. cbn [self world trace].
  destruct (processingTwoFactor (world st)) as [w1 [e | [code h]]];
    cbn [fst snd lift throw ret].
  - unfold after. rewrite <- !app_assoc. reflexivity.
  - unfold try_catch, bind at 1.
    destruct (getFullURL _ _) as [e | u]; cbn [lift throw ret].
    + unfold bind, reject, throw, after. cbn [self world trace].
      rewrite <- !app_assoc. reflexivity.
    + unfold fetch, call. cbn [self world trace].
      destruct (fetchCookie w1 POST u _) as [w2 [e | r]];
        cbn [fst snd lift throw ret].
      * unfold bind, reject, throw, after. cbn [self world trace].
        rewrite <- !app_assoc. reflexivity.
      * unfold after. cbn [self world trace].
        rewrite <- !app_assoc. reflexivity.
Qed.

Lemma twoFactor_entered_idle (doc : Cheerio) (st : State) :
  twoFactorValidate (self st) = None -> twoFactor_entered doc st = st.
Proof. unfold twoFactor_entered. intros ->. reflexivity. Qed.

(** X9. When the callback service gives no code (the question is
    cancelled, the handler fails), [processTwoFactorForm] throws that
    error: nothing is posted and nothing rejected. *)
Theorem twoFactor_code_refused (response : Response) (doc : Cheerio)
    (st : State) (w1 : World) (e : jserror) :
  twoFactorValidate (self st) = None ->
  (twoFactorAttempts (self st) < TWO_FACTOR_ATTEMPTS)%N ->
  processingTwoFactor (world st) = (w1, inl e) ->
  processTwoFactorForm response doc st =
    (Throw e, after st w1 [EvParseFormField; EvProcessingTwoFactor (inl e)]).
Proof.
  intros Hv Ha Hc.
  rewrite processTwoFactorForm_unfold, (twoFactor_entered_idle _ _ Hv).
  cbv zeta. destruct (N.leb_spec TWO_FACTOR_ATTEMPTS (twoFactorAttempts (self st)));
    [lia |].
  rewrite twoFactor_ask_total, Hc. reflexivity.
Qed.

(** X10. [processTwoFactorForm] entered with a handle in
    [twoFactorValidate]: the handle is rejected with
    FAILED_PASSED_TWO_FACTOR, message "Incorrect two-factor code" and the
    markup of the page, before anything else, and [twoFactorAttempts] goes
    up by one; the handle stays in the field.  When the count has then
    reached TWO_FACTOR_ATTEMPTS the handler throws
    FAILED_PASSED_TWO_FACTOR, "Failed passed two-factor authentication",
    having parsed, asked and posted nothing. *)
Theorem twoFactor_stale_handle (response : Response) (doc : Cheerio)
    (st : State) (h : Handle) :
  twoFactorValidate (self st) = Some h ->
  let result := processTwoFactorForm response doc st in
  let stale :=
    AuthError {| message := js "Incorrect two-factor code";
                 code := FAILED_PASSED_TWO_FACTOR;
                 pageHtml := Some (cheerio_html doc) |} in
  (exists rest, trace (snd result) = trace st ++ EvReject h stale :: rest) /\
  twoFactorAttempts (self (snd result)) = (twoFactorAttempts (self st) + 1)%N /\
  twoFactorValidate (self (snd result)) = Some h /\
  ((TWO_FACTOR_ATTEMPTS <= twoFactorAttempts (self st) + 1)%N ->
   result =
     (Throw (AuthError
               {| message := js "Failed passed two-factor authentication";
                  code := FAILED_PASSED_TWO_FACTOR;
                  pageHtml := None |}),
      {| self := bump_twoFactorAttempts (self st);
         world := validate_reject (world st) h stale;
         trace := trace st ++ [EvReject h stale] |})).
Proof.
  intros Hv result stale. subst result.
  rewrite processTwoFactorForm_unfold.
  unfold twoFactor_entered. rewrite Hv.
  change (stale_twoFactor doc) with stale.
  set (st1 := Build_State _ _ _). cbv zeta.
  assert (Hself : self st1 = bump_twoFactorAttempts (self st)) by reflexivity.
  assert (Hask : exists evs,
             trace (snd (twoFactor_ask response doc st1)) = trace st1 ++ evs).
  { assert (He : emits (fun _ => True) (twoFactor_ask response doc))
      by (unfold twoFactor_ask, parse_form; emits_steps).
    destruct (He st1) as (evs & Ht & _). exists evs. exact Ht. }
  assert (Hkeep : self (snd (twoFactor_ask response doc st1)) = self st1).
  { apply keeps_self. intros Q. unfold twoFactor_ask. keeps_steps. }
  destruct (N.leb_spec TWO_FACTOR_ATTEMPTS (twoFactorAttempts (self st1)))
    as [Hle | Hlt].
  - cbn [snd]. split; [exists []; reflexivity |].
    split; [reflexivity |]. split; [exact Hv |]. intros _. reflexivity.
  - destruct Hask as (evs & Ht). rewrite Ht, Hkeep, Hself.
    split; [exists evs; subst st1; cbn [trace]; rewrite <- app_assoc; reflexivity |].
    split; [reflexivity |]. split; [exact Hv |].
    intros Hle. rewrite Hself in Hlt. cbn in Hlt. lia.
Qed.

(** X8. The first captcha of a run, or any captcha met with no handle
    stored: nothing is rejected and the count stays; the callback service is
    asked once. *)
Theorem captcha_first_entry (response : Response) (doc : Cheerio)
    (st : State) :
  captchaValidate (self st) = None ->
  let st' := snd (processCaptchaForm response doc st) in
  rejections (trace st') = rejections (trace st) /\
  captchaAttempts (self st') = captchaAttempts (self st) /\
  requests (trace st') = Datatypes.S (requests (trace st)).
Proof.
  intros Hv st'. subst st'.
  rewrite captcha_form_steps. unfold captcha_entered. rewrite Hv. cbv zeta.
  destruct (processingCaptcha _ _) as [w1 [e | [key h]]].
  - unfold after. cbn [snd self trace].
    rewrite rejections_app, requests_app. cbn. rewrite app_nil_r.
    repeat split. lia.
  - destruct (getFullURL _ _) as [e | u].
    + cbn [snd self trace with_captchaValidate captchaAttempts].
      rewrite rejections_app, requests_app. cbn. rewrite app_nil_r.
      repeat split. lia.
    + unfold after.
      cbn [snd self trace with_captchaValidate captchaAttempts].
      rewrite !rejections_app, !requests_app. cbn. rewrite !app_nil_r.
      repeat split. lia.
Qed.

(** X7. The captcha form, once the callback service has answered and the
    URL of the form is made: the service was asked with the type
    ACCOUNT_VERIFICATION, the form's [captcha_sid] and the [src] of the
    image; the form is posted to its URL with [utf8=1] set, the answer in
    [captcha_key] and every other field as parsed; the handle is in
    [captchaValidate], whatever comes of the POST; and what the POST gives
    is what the handler gives. *)
Theorem captcha_answer_posted (response : Response) (doc : Cheerio)
    (st : State) (w1 : World) (key : jsstring) (h : Handle) (u : jsstring) :
  let payload :=
    {| type_ := ACCOUNT_VERIFICATION;
       sid := fields (parseFormField doc) !! js "captcha_sid";
       src := captcha_img_src doc |} in
  processingCaptcha (world (captcha_entered st)) payload = (w1, inr (key, h)) ->
  getFullURL (action (parseFormField doc)) (url response) = inr u ->
  let result := processCaptchaForm response doc st in
  let target := searchParams_set u (js "utf8") (js "1") in
  exists body w2 r,
    fetchCookie w1 POST target (Some body) = (w2, r) /\
    trace (snd result) =
      trace (captcha_entered st) ++
      [EvParseFormField; EvProcessingCaptcha payload (inr (key, h));
       EvFetch POST target (Some body) r] /\
    body !! js "captcha_key" = Some key /\
    (forall k, k <> js "captcha_key" ->
               body !! k = fields (parseFormField doc) !! k) /\
    captchaValidate (self (snd result)) = Some h /\
    fst result = match r with inl e => Throw e | inr r' => Normal r' end.
Proof.
  intros payload Hc Hu result target. subst result.
  rewrite captcha_form_steps. fold payload in Hc.
  change (captcha_payload doc) with payload.
  cbv zeta. rewrite Hc, Hu. fold target.
  set (body := <[_ := _]> _).
  destruct (fetchCookie w1 POST target (Some body)) as [w2 r] eqn:Hf.
  exists body, w2, r. cbn [fst snd].
  split; [exact Hf |]. split.
  { unfold after. cbn [trace]. rewrite <- app_assoc. reflexivity. }
  split; [unfold body; apply lookup_insert_eq |]. split.
  { intros k Hk. unfold body. rewrite lookup_insert_ne; congruence. }
  split; reflexivity.
Qed.

(** X11. After [processCaptchaForm] the handle stored is the one the
    callback service has just given, and none when it gave none: a handle
    of an earlier captcha never stays, and the outcome of the POST does not
    matter. *)
Theorem captcha_handle_stored (response : Response) (doc : Cheerio)
    (st : State) :
  captchaValidate (self (snd (processCaptchaForm response doc st))) =
  match snd (processingCaptcha (world (captcha_entered st))
               {| type_ := ACCOUNT_VERIFICATION;
                  sid := fields (parseFormField doc) !! js "captcha_sid";
                  src := captcha_img_src doc |}) with
  | inr (_, h) => Some h
  | inl _ => None
  end.
Proof.
  rewrite captcha_form_steps. cbv zeta.
  change (captcha_payload doc) with
    {| type_ := ACCOUNT_VERIFICATION;
       sid := fields (parseFormField doc) !! js "captcha_sid";
       src := captcha_img_src doc |}.
  destruct (processingCaptcha _ _) as [w1 [e | [key h]]]; cbn [snd].
  - unfold after, captcha_entered. cbn [self].
    destruct (captchaValidate (self st)) eqn:Hv; [reflexivity | exact Hv].
  - destruct (getFullURL _ _); reflexivity.
Qed.

End Forms.

(* ===================================================================== *)
(** ** What holds all along a run *)
(* ===================================================================== *)

Section Accounting.

Context {P : Platform} {S : Services}.

Lemma emits_load Pev (response : Response) :
  Pev (EvText (text response)) -> emits Pev (load response).
Proof.
  intros H. unfold load.
  apply emits_bind; [apply emits_log, H | intros _; apply emits_lift].
Qed.

Lemma emits_parse_form Pev (doc : Cheerio) :
  Pev EvParseFormField -> emits Pev (parse_form doc).
Proof.
  intros H. unfold parse_form.
  apply emits_bind; [apply emits_log, H | intros _; apply emits_ret].
Qed.

Lemma emits_weaken {A} (Pev Qev : Event -> Prop) (m : M A) :
  (forall ev, Pev ev -> Qev ev) -> emits Pev m -> emits Qev m.
Proof.
  intros H Hm st. destruct (Hm st) as (evs & Ht & Hp).
  exists evs. split; [exact Ht |]. eapply Forall_impl; [exact Hp | exact H].
Qed.

Lemma silent_no_captcha_answer (ev : Event) :
  is_silent ev -> no_captcha_answer ev.
Proof. destruct ev; cbn; tauto. Qed.

Lemma processTwoFactorForm_keeps Q (response : Response) (doc : Cheerio) :
  (forall a, Q a -> Q (bump_twoFactorAttempts a)) ->
  keeps Q (processTwoFactorForm response doc).
Proof.
  intros Hb st H. rewrite processTwoFactorForm_unfold. cbv zeta.
  assert (H1 : Q (self (twoFactor_entered doc st))).
  { unfold twoFactor_entered. destruct (twoFactorValidate (self st));
      [apply Hb, H | exact H]. }
  destruct (_ <=? _)%N; [exact H1 |].
  assert (Hk : keeps Q (twoFactor_ask response doc))
    by (unfold twoFactor_ask; keeps_steps).
  apply Hk, H1.
Qed.

Lemma processTwoFactorForm_no_captcha (response : Response) (doc : Cheerio) :
  emits no_captcha_answer (processTwoFactorForm response doc).
Proof.
  intros st. rewrite processTwoFactorForm_unfold. cbv zeta.
  assert (He : emits no_captcha_answer (twoFactor_ask response doc))
    by (unfold twoFactor_ask, parse_form; emits_steps).
  assert (H1 : exists evs, trace (twoFactor_entered doc st) = trace st ++ evs
                           /\ Forall no_captcha_answer evs).
  { unfold twoFactor_entered. destruct (twoFactorValidate (self st)).
    - eexists [_]. split; [reflexivity | repeat constructor].
    - exists []. rewrite app_nil_r. split; [reflexivity | constructor]. }
  destruct H1 as (evs1 & Ht1 & Hp1).
  destruct (_ <=? _)%N.
  - exists evs1. split; assumption.
  - destruct (He (twoFactor_entered doc st)) as (evs2 & Ht2 & Hp2).
    exists (evs1 ++ evs2). rewrite Ht2, Ht1, app_assoc.
    split; [reflexivity | apply Forall_app; split; assumption].
Qed.

Lemma quiet_answers (t evs : list Event) :
  Forall no_captcha_answer evs ->
  captcha_answers (t ++ evs) = captcha_answers t.
Proof.
  intros H. rewrite captcha_answers_app.
  induction H as [| ev evs Hev _ IH]; [cbn; lia |].
  destruct ev as [| | | | p [e | a] |]; try contradiction; exact IH.
Qed.

(** A computation that leaves the captcha fields alone and receives no
    captcha answer keeps the account. *)
Lemma accounted_frame {A} (m : M A) :
  (forall Q, (forall a, Q a -> Q (bump_twoFactorAttempts a)) -> keeps Q m) ->
  emits no_captcha_answer m ->
  preserves captcha_accounted m.
Proof.
  intros Hk He st H. unfold captcha_accounted, pending_now in *.
  destruct (He st) as (evs & Ht & Hp).
  assert (Hf : captchaAttempts (self (snd (m st))) = captchaAttempts (self st) /\
               captchaValidate (self (snd (m st))) = captchaValidate (self st)).
  { apply (Hk (fun a => captchaAttempts a = captchaAttempts (self st) /\
                        captchaValidate a = captchaValidate (self st))).
    - intros a Ha. exact Ha.
    - split; reflexivity. }
  destruct Hf as [-> ->]. rewrite Ht, (quiet_answers _ _ Hp). exact H.
Qed.

Lemma captcha_entered_accounted (st : State) :
  captcha_accounted st ->
  captcha_accounted (captcha_entered st) /\
  captchaValidate (self (captcha_entered st)) = None.
Proof.
  unfold captcha_accounted, captcha_entered, pending_now.
  destruct (captchaValidate (self st)) eqn:Hv; intros H.
  - cbn [self trace bump_captchaAttempts with_captchaValidate
         captchaAttempts captchaValidate].
    rewrite captcha_answers_app. cbn. split; [lia | reflexivity].
  - rewrite Hv. split; [exact H | reflexivity].
Qed.

Lemma processCaptchaForm_accounted (response : Response) (doc : Cheerio) :
  preserves captcha_accounted (processCaptchaForm response doc).
Proof.
  intros st H. rewrite captcha_form_steps. cbv zeta.
  destruct (captcha_entered_accounted st H) as [H0 Hv0].
  unfold captcha_accounted, pending_now in *.
  destruct (processingCaptcha _ _) as [w1 [e | [key h]]].
  - unfold after. cbn [snd self trace]. rewrite Hv0 in *.
    rewrite captcha_answers_app. cbn. lia.
  - destruct (getFullURL _ _) as [e | u].
    + cbn [snd self trace with_captchaValidate captchaAttempts captchaValidate].
      rewrite Hv0 in H0. rewrite captcha_answers_app. cbn. lia.
    + unfold after.
      cbn [snd self trace with_captchaValidate captchaAttempts captchaValidate].
      rewrite Hv0 in H0. rewrite !captcha_answers_app. cbn. lia.
Qed.

Lemma preserves_bind {A B} I (m : M A) (k : A -> M B) :
  preserves I m -> (forall a, preserves I (k a)) -> preserves I (bind m k).
Proof.
  intros Hm Hk st H. unfold bind. specialize (Hm st H).
  destruct (m st) as [[a | e] st']; cbn [snd] in *; [apply Hk |]; exact Hm.
Qed.

Lemma preserves_ret {A} I (a : A) : preserves I (ret a).
Proof. intros st H. exact H. Qed.

Lemma turn_accounted (response : Response) :
  preserves captcha_accounted (turn response).
Proof.
  unfold turn.
  destruct (includes _ CALLBACK_BLANK).
  { apply preserves_bind; [| intros ?; apply preserves_ret].
    intros st H. rewrite blank_pure. exact H. }
  apply preserves_bind.
  { apply accounted_frame; [intros Q _; apply keeps_load |].
    apply emits_load. exact I. }
  intros doc.
  destruct (includes _ ACTION_AUTH_CODE).
  { apply preserves_bind; [| intros ?; apply preserves_ret].
    apply accounted_frame; [intros Q HQ; apply processTwoFactorForm_keeps, HQ |].
    apply processTwoFactorForm_no_captcha. }
  destruct (includes _ ACTION_SECURITY_CODE).
  { apply preserves_bind; [| intros ?; apply preserves_ret].
    apply accounted_frame; [intros Q _; apply processSecurityForm_keeps |].
    eapply emits_weaken; [exact silent_no_captcha_answer |].
    apply processSecurityForm_silent. }
  destruct (includes _ ACTION_VALIDATE).
  { apply preserves_bind; [| intros ?; apply preserves_ret].
    apply accounted_frame; [intros Q _; apply processValidateForm_keeps |].
    eapply emits_weaken; [exact silent_no_captcha_answer |].
    apply processValidateForm_silent. }
  destruct (includes _ ACTION_CAPTCHA).
  { apply preserves_bind; [| intros ?; apply preserves_ret].
    apply processCaptchaForm_accounted. }
  intros st H. exact H.
Qed.

Lemma loop_preserves I (fuel : nat) :
  (forall response, preserves I (turn response)) ->
  forall (response : Response) (st : State),
    I st -> I (snd (loop fuel response st)).
Proof.
  intros Ht. induction fuel as [| fuel IH]; intros response st H.
  - exact H.
  - rewrite loop_turn. specialize (Ht response st H).
    destruct (turn response st) as [[[r | response'] | e] st']; cbn [snd] in *.
    + exact Ht.
    + apply IH, Ht.
    + exact Ht.
Qed.

(** X12. All along a run the captcha count is kept in step with the
    callback service: [captchaAttempts], plus one when a handle is stored,
    is the number of captchas the service has answered.  So every answer
    but the last has been counted as wrong, and the last is the one whose
    handle is stored. *)
Theorem run_captcha_accounted (fuel : nat) (redirectUri : jsstring)
    (o : Options) (w : World) :
  let st' := snd (run fuel redirectUri (initial o w)) in
  (captchaAttempts (self st')
   + match captchaValidate (self st') with Some _ => 1 | None => 0 end)%N
  = N.of_nat (captcha_answers (trace st')).
Proof.
  intros st'. subst st'. unfold run.
  assert (H0 : captcha_accounted (snd (fetch GET redirectUri None (initial o w)))).
  { apply accounted_frame.
    - intros Q _. apply keeps_fetch.
    - apply emits_fetch. intros r. exact I.
    - reflexivity. }
  destruct (fetch GET redirectUri None (initial o w)) as [[r | e] st1];
    cbn [snd] in *.
  - apply (loop_preserves captcha_accounted fuel turn_accounted r st1 H0).
  - exact H0.
Qed.

(** X13. When the body of a response cannot be read, on a page that is
    not the blank page, [run] throws the error of the read: no handler is
    entered, whatever action the URL names, and nothing else is called. *)
Theorem run_load_failure (fuel : nat) (response : Response) (e : jserror)
    (st : State) :
  includes (url response) CALLBACK_BLANK = false ->
  text response = inl e ->
  loop (Datatypes.S fuel) response st =
    (Raised e, after st (world st) [EvText (inl e)]).
Proof.
  intros Hb Ht. rewrite loop_turn. unfold turn. rewrite Hb.
  unfold bind at 1, load, bind, log, lift. rewrite Ht. reflexivity.
Qed.

End Accounting.

Section Known.

Context {P : Platform} {S : Services}.

Lemma seen_issued (h : Handle) (t : list Event) (seen : list Handle) :
  In h (issued t) -> existsb (N.eqb h) (rev (issued t) ++ seen) = true.
Proof.
  intros H. apply existsb_exists. exists h.
  split; [apply in_or_app; left; apply in_rev; rewrite rev_involutive; exact H
         | apply N.eqb_refl].
Qed.

Lemma known_extend (st : State) (a' : AccountVerification) (w' : World)
    (evs : list Event) :
  handles_known st ->
  rejects_issued (rev (issued (trace st))) evs = true ->
  twoFactorValidate a' = None ->
  (forall h, captchaValidate a' = Some h ->
             In h (issued (trace st)) \/ In h (issued evs)) ->
  handles_known {| self := a'; world := w'; trace := trace st ++ evs |}.
Proof.
  intros (Hr & Hc & Hv) Hevs Hv' Hc'. unfold handles_known. cbn [self trace].
  split; [| split; [| exact Hv']].
  - rewrite rejects_issued_app, Hr, app_nil_r. exact Hevs.
  - intros h Hh. rewrite issued_app. apply in_or_app, Hc', Hh.
Qed.

Lemma known_frame {A} (m : M A) :
  (forall Q, keeps Q m) -> emits is_silent m -> preserves handles_known m.
Proof.
  intros Hk He st H.
  destruct (He st) as (evs & Ht & Hp).
  pose proof (keeps_self m Hk st) as Hs.
  destruct (snd (m st)) as [a' w' t']. cbn [self trace] in *. subst a' t'.
  destruct H as (Hr & Hc & Hv).
  apply known_extend; [repeat split; assumption | | exact Hv |].
  - apply (silent_calls (trace st) evs Hp).
  - intros h Hh. left. apply Hc, Hh.
Qed.

Lemma processTwoFactorForm_known (response : Response) (doc : Cheerio) :
  preserves handles_known (processTwoFactorForm response doc).
Proof.
  intros st H. pose proof H as (Hr & Hc & Hv).
  rewrite processTwoFactorForm_unfold, (twoFactor_entered_idle _ _ Hv).
  cbv zeta. destruct (_ <=? _)%N; [exact H |].
  rewrite twoFactor_ask_total. cbv zeta.
  destruct (processingTwoFactor (world st)) as [w1 [e | [code h]]]; cbn [fst snd].
  - apply known_extend; [exact H | reflexivity | exact Hv |].
    intros h0 Hh. left. apply Hc, Hh.
  - destruct (getFullURL _ _) as [e | u].
    + apply known_extend; [exact H | | exact Hv |].
      * cbn. rewrite N.eqb_refl. reflexivity.
      * intros h0 Hh. left. apply Hc, Hh.
    + destruct (fetchCookie w1 POST u _) as [w2 [e | r]]; cbn [fst snd].
      * apply known_extend; [exact H | | exact Hv |].
        -- cbn. rewrite N.eqb_refl. reflexivity.
        -- intros h0 Hh. left. apply Hc, Hh.
      * apply known_extend; [exact H | reflexivity | exact Hv |].
        intros h0 Hh. left. apply Hc, Hh.
Qed.

Lemma captcha_entered_known (st : State) :
  handles_known st ->
  handles_known (captcha_entered st) /\
  captchaValidate (self (captcha_entered st)) = None.
Proof.
  intros H. pose proof H as (Hr & Hc & Hv). unfold captcha_entered.
  destruct (captchaValidate (self st)) as [h |] eqn:Hs.
  - split; [| reflexivity].
    apply known_extend; [exact H | | exact Hv |].
    + cbn [rejects_issued]. rewrite <- (app_nil_r (rev _)).
      rewrite (seen_issued h _ [] (Hc h eq_refl)). reflexivity.
    + intros h0 Hh. discriminate Hh.
  - split; [exact H | exact Hs].
Qed.

Lemma processCaptchaForm_known (response : Response) (doc : Cheerio) :
  preserves handles_known (processCaptchaForm response doc).
Proof.
  intros st H. rewrite captcha_form_steps. cbv zeta.
  destruct (captcha_entered_known st H) as [H0 Hv0].
  pose proof H0 as (Hr & Hc & Hv).
  destruct (processingCaptcha _ _) as [w1 [e | [key h]]].
  - apply known_extend; [exact H0 | reflexivity | exact Hv |].
    intros h0 Hh. rewrite Hv0 in Hh. discriminate Hh.
  - assert (H1 : handles_known
             {| self := with_captchaValidate (Some h) (self (captcha_entered st));
                world := w1;
                trace := trace (captcha_entered st) ++
                         [EvParseFormField;
                          EvProcessingCaptcha (captcha_payload doc)
                            (inr (key, h))] |}).
    { apply known_extend; [exact H0 | reflexivity | exact Hv |].
      intros h0 [= <-]. right. left. reflexivity. }
    destruct (getFullURL _ _) as [e | u]; [exact H1 |].
    cbn [snd]. unfold after.
    apply known_extend; [exact H1 | reflexivity | exact Hv |].
    intros h0 Hh. left. apply H1, Hh.
Qed.

Lemma turn_known (response : Response) :
  preserves handles_known (turn response).
Proof.
  unfold turn.
  destruct (includes _ CALLBACK_BLANK).
  { apply preserves_bind; [| intros ?; apply preserves_ret].
    intros st H. rewrite blank_pure. exact H. }
  apply preserves_bind.
  { apply known_frame; [intros Q; apply keeps_load |].
    apply emits_load. exact I. }
  intros doc.
  destruct (includes _ ACTION_AUTH_CODE).
  { apply preserves_bind; [| intros ?; apply preserves_ret].
    apply processTwoFactorForm_known. }
  destruct (includes _ ACTION_SECURITY_CODE).
  { apply preserves_bind; [| intros ?; apply preserves_ret].
    apply known_frame; [intros Q; apply processSecurityForm_keeps |].
    apply processSecurityForm_silent. }
  destruct (includes _ ACTION_VALIDATE).
  { apply preserves_bind; [| intros ?; apply preserves_ret].
    apply known_frame; [intros Q; apply processValidateForm_keeps |].
    apply processValidateForm_silent. }
  destruct (includes _ ACTION_CAPTCHA).
  { apply preserves_bind; [| intros ?; apply preserves_ret].
    apply processCaptchaForm_known. }
  intros st H. exact H.
Qed.

(** X14. [run] rejects no handle but one the callback service has handed
    out earlier in the same run, and the captcha handle it holds at any
    point is one the service has handed out. *)
Theorem run_rejects_known_handles (fuel : nat) (redirectUri : jsstring)
    (o : Options) (w : World) :
  let st' := snd (run fuel redirectUri (initial o w)) in
  rejects_issued [] (trace st') = true /\
  (forall h, captchaValidate (self st') = Some h -> In h (issued (trace st'))).
Proof.
  intros st'. subst st'. unfold run.
  assert (H0 : handles_known (snd (fetch GET redirectUri None (initial o w)))).
  { apply known_frame.
    - intros Q. apply keeps_fetch.
    - apply emits_fetch. intros r. exact I.
    - repeat split. intros h Hh. discriminate Hh. }
  destruct (fetch GET redirectUri None (initial o w)) as [[r | e] st1];
    cbn [snd] in *.
  - destruct (loop_preserves handles_known fuel turn_known r st1 H0)
      as (Hr & Hc & _).
    split; assumption.
  - destruct H0 as (Hr & Hc & _). split; assumption.
Qed.

End Known.

Section Granted.

Context {P : Platform} {S : Services}.

Lemma fetched_last (t : list Event) (m : Method) (u : jsstring)
    (b : option Fields) (r : Response) :
  fetched_in (t ++ [EvFetch m u b (inr r)]) r.
Proof. exists m, u, b. apply in_or_app. right. left. reflexivity. Qed.

Lemma processValidateForm_fetched (response : Response) (doc : Cheerio)
    (st st' : State) (r : Response) :
  processValidateForm response doc st = (Normal r, st') ->
  fetched_in (trace st') r.
Proof.
  unfold processValidateForm, bind.
  destruct (getFullURL _ _) as [e | u]; cbn [lift throw ret]; [discriminate |].
  unfold fetch, call.
  destruct (fetchCookie _ _ _ _) as [w [e | r']]; cbn [lift throw ret];
    [discriminate |].
  intros [= <- <-]. apply fetched_last.
Qed.

Lemma processSecurityForm_fetched (response : Response) (doc : Cheerio)
    (st st' : State) (r : Response) :
  processSecurityForm response doc st = (Normal r, st') ->
  fetched_in (trace st') r.
Proof.
  destruct (security_number (options (self st))) as [e | number] eqn:Hn.
  { unfold processSecurityForm, bind, this. rewrite Hn. discriminate. }
  destruct (getFullURL (action (parseFormField doc)) (url response))
    as [e | u] eqn:Hu.
  { unfold processSecurityForm, bind, this, parse_form, bind, log, ret.
    rewrite Hn. cbn [lift ret]. rewrite Hu. discriminate. }
  rewrite (security_form_steps _ _ _ _ _ Hn Hu). cbv zeta.
  destruct (fetchCookie _ _ _ _) as [w [e | r']]; cbn [fst snd];
    [discriminate |].
  destruct (includes _ _); [discriminate |].
  intros [= <- <-]. unfold after. cbn [trace].
  change [EvParseFormField; ?x] with ([EvParseFormField] ++ [x]).
  rewrite app_assoc. apply fetched_last.
Qed.

Lemma processTwoFactorForm_fetched (response : Response) (doc : Cheerio)
    (st st' : State) (r : Response) :
  processTwoFactorForm response doc st = (Normal r, st') ->
  fetched_in (trace st') r.
Proof.
  rewrite processTwoFactorForm_unfold. cbv zeta.
  destruct (_ <=? _)%N; [discriminate |].
  rewrite twoFactor_ask_total. cbv zeta.
  destruct (processingTwoFactor _) as [w1 [e | [code h]]]; cbn [fst snd];
    [discriminate |].
  destruct (getFullURL _ _) as [e | u]; [discriminate |].
  destruct (fetchCookie _ _ _ _) as [w2 [e | r']]; cbn [fst snd];
    [discriminate |].
  intros [= <- <-]. unfold after. cbn [trace].
  change [EvParseFormField; ?x; ?y] with ([EvParseFormField; x] ++ [y]).
  rewrite app_assoc. apply fetched_last.
Qed.

Lemma processCaptchaForm_fetched (response : Response) (doc : Cheerio)
    (st st' : State) (r : Response) :
  processCaptchaForm response doc st = (Normal r, st') ->
  fetched_in (trace st') r.
Proof.
  rewrite captcha_form_steps. cbv zeta.
  destruct (processingCaptcha _ _) as [w1 [e | [key h]]]; [discriminate |].
  destruct (getFullURL _ _) as [e | u]; [discriminate |].
  destruct (fetchCookie _ _ _ _) as [w2 [e | r']]; cbn [fst snd];
    [discriminate |].
  intros [= <- <-]. unfold after. cbn [trace]. apply fetched_last.
Qed.

Lemma turn_outcomes (response : Response) (st st' : State) (t : Turn) :
  turn response st = (Normal t, st') ->
  match t with
  | Return result =>
      includes (url response) CALLBACK_BLANK = true /\
      blank response st = (Normal result, st')
  | Continue response' => fetched_in (trace st') response'
  end.
Proof.
  unfold turn.
  destruct (includes _ CALLBACK_BLANK).
  { unfold bind. destruct (blank response st) as [[result | e] st1];
      [| discriminate].
    intros [= <- <-]. split; reflexivity. }
  unfold bind at 1.
  destruct (load response st) as [[doc | e] st1]; [| discriminate].
  destruct (includes _ ACTION_AUTH_CODE).
  { unfold bind.
    destruct (processTwoFactorForm response doc st1) as [[r | e] st2] eqn:H;
      [| discriminate].
    intros [= <- <-]. eapply processTwoFactorForm_fetched, H. }
  destruct (includes _ ACTION_SECURITY_CODE).
  { unfold bind.
    destruct (processSecurityForm response doc st1) as [[r | e] st2] eqn:H;
      [| discriminate].
    intros [= <- <-]. eapply processSecurityForm_fetched, H. }
  destruct (includes _ ACTION_VALIDATE).
  { unfold bind.
    destruct (processValidateForm response doc st1) as [[r | e] st2] eqn:H;
      [| discriminate].
    intros [= <- <-]. eapply processValidateForm_fetched, H. }
  destruct (includes _ ACTION_CAPTCHA).
  { unfold bind.
    destruct (processCaptchaForm response doc st1) as [[r | e] st2] eqn:H;
      [| discriminate].
    intros [= <- <-]. eapply processCaptchaForm_fetched, H. }
  discriminate.
Qed.

Lemma loop_returned (fuel : nat) :
  forall (response : Response) (st st' : State) (result : AuthResult),
    fetched_in (trace st) response ->
    loop fuel response st = (Returned result, st') ->
    exists last,
      fetched_in (trace st') last /\
      includes (url last) CALLBACK_BLANK = true /\
      blank last st' = (Normal result, st').
Proof.
  induction fuel as [| fuel IH]; intros response st st' result Hin.
  - discriminate.
  - rewrite loop_turn.
    destruct (turn response st) as [[[r | response'] | e] st1] eqn:Ht;
      pose proof (turn_outcomes _ _ _ _ Ht) as Ho || idtac.
    + intros [= <- <-]. destruct Ho as [Hb Hbl].
      pose proof (blank_pure response st) as Hp. rewrite Hbl in Hp.
      cbn [snd] in Hp. subst st1.
      exists response. repeat split; assumption.
    + apply IH, Ho.
    + discriminate.
Qed.

(** X15. [run] returns a token only off a blank page the portal has sent:
    when it returns, some response of the session has a URL with the
    blank-page marker and no [error] among the parameters of its fragment,
    and the result is read off that fragment, [token] from [access_token]
    and [user] from [user_id]. *)
Theorem run_returns_from_blank_page (fuel : nat) (redirectUri : jsstring)
    (o : Options) (w : World) (result : AuthResult) (st' : State) :
  run fuel redirectUri (initial o w) = (Returned result, st') ->
  exists last,
    fetched_in (trace st') last /\
    includes (url last) CALLBACK_BLANK = true /\
    params_has (blank_params last) (js "error") = false /\
    token result = params_get (blank_params last) (js "access_token") /\
    user result =
      match params_get (blank_params last) (js "user_id") with
      | Some u => Some (Number u)
      | None => None
      end.
Proof.
  unfold run, fetch, call. cbn [world initial].
  destruct (fetchCookie w GET redirectUri None) as [w1 [e | r]];
    cbn [lift throw ret]; [discriminate |].
  intros H. apply loop_returned in H.
  2: { cbn [trace self initial]. apply (fetched_last []). }
  destruct H as (last & Hin & Hb & Hbl).
  exists last. split; [exact Hin |]. split; [exact Hb |].
  unfold blank in Hbl. fold (blank_params last) in Hbl.
  destruct (params_has (blank_params last) (js "error")); [discriminate |].
  injection Hbl as <-. repeat split.
Qed.

End Granted.

(* ===================================================================== *)
(** ** The collect groups *)
(* ===================================================================== *)

Section CollectGroups.

Import Collect.








Lemma split_no_sep (sep : N) (s : jsstring) :
  ~ In sep s -> split sep s = [s].
Proof.
  induction s as [| c s IH]; intros H; [reflexivity |].
  cbn [split]. rewrite IH by (intros Hin; apply H; right; exact Hin).
  destruct (N.eqb_spec c sep) as [-> | _]; [| reflexivity].
  exfalso. apply H. left. reflexivity.
Qed.

Lemma split_at_sep (sep : N) (s rest : jsstring) :
  ~ In sep s -> split sep (s ++ sep :: rest) = s :: split sep rest.
Proof.
  induction s as [| c s IH]; intros H.
  - cbn [app split]. rewrite N.eqb_refl.
    destruct (split sep rest) eqn:Hs; [| reflexivity].
    destruct rest; cbn in Hs; [discriminate |].
    destruct (split sep rest); [discriminate |].
    destruct (N.eqb n sep); discriminate.
  - cbn [app split]. rewrite IH by (intros Hin; apply H; right; exact Hin).
    destruct (N.eqb_spec c sep) as [-> | _]; [| reflexivity].
    exfalso. apply H. left. reflexivity.
Qed.

(** X18. How a method names its place: "group.name" goes under [name] of
    [group]; what follows a second dot is dropped; and a method without a
    dot goes under the name "undefined" of a group called as the whole
    method. *)
Theorem group_name_parts (g n rest : jsstring) :
  ~ In dot g -> ~ In dot n ->
  group_name (g ++ dot :: n) = (g, n) /\
  group_name (g ++ dot :: n ++ dot :: rest) = (g, n) /\
  group_name g = (g, js "undefined").
Proof.
  intros Hg Hn. unfold group_name. split; [| split].
  - rewrite (split_at_sep dot g n Hg), (split_no_sep dot n Hn). reflexivity.
  - rewrite (split_at_sep dot g _ Hg), (split_at_sep dot n rest Hn).
    reflexivity.
  - rewrite (split_no_sep dot g Hg). reflexivity.
Qed.

End CollectGroups.

(* ===================================================================== *)
(** ** More runs *)
(* ===================================================================== *)

Section MoreRuns.

Import Sample.
#[local] Existing Instance platform.

Lemma number_ignores_white_space_witness :
  forallb isWhiteSpace (js "  ") = true /\
  forallb isWhiteSpace [160%N; 10%N] = true /\
  normalize_number (@PhoneString platform
                      (js "  " ++ js "+7 123" ++ [160%N; 10%N])) =
    js "7 123".
Proof.
  split; [reflexivity |]. split; [reflexivity |].
  rewrite (@number_ignores_white_space platform (js "  ") (js "+7 123")
             [160%N; 10%N] eq_refl eq_refl).
  reflexivity.
Defined.

Lemma security_code_middle_witness :
  (Z.to_nat (length (trim (field_prefix_last_text the_page)))
   <= List.length (js "71234567890"))%nat /\
  security_code (js "71234567890") the_page = js "2345678".
Proof.
  assert (H : (Z.to_nat (length (trim (field_prefix_last_text the_page)))
               <= List.length (js "71234567890"))%nat)
    by (apply Nat.leb_le; reflexivity).
  split; [exact H |].
  rewrite (proj1 (@security_code_middle platform (js "71234567890") the_page H)).
  reflexivity.
Defined.

Lemma security_code_wraps_witness :
  (List.length (js "12345")
   < Z.to_nat (length (trim (field_prefix_last_text long_label))))%nat /\
  security_code (js "12345") long_label = js "23".
Proof.
  assert (H : (List.length (js "12345")
               < Z.to_nat (length (trim (field_prefix_last_text long_label))))%nat)
    by (apply Nat.ltb_lt; reflexivity).
  split; [exact H |].
  rewrite (@security_code_wraps platform (js "12345") long_label H).
  reflexivity.
Defined.

Lemma captcha_answer_posted_witness :
  processingCaptcha
    (world (captcha_entered (fresh welcome_portal no_options)))
    {| type_ := ACCOUNT_VERIFICATION;
       sid := fields (parseFormField the_page) !! js "captcha_sid";
       src := captcha_img_src the_page |}
    = ({| fetched := 0; asked := 1 |}, inr ([], 0%N)) /\
  getFullURL (action (parseFormField the_page)) (url captcha_page) =
    inr (js "https://m.vk.com/login") /\
  captchaValidate
    (self (snd (processCaptchaForm captcha_page the_page
                  (fresh welcome_portal no_options)))) = Some 0%N.
Proof.
  split; [reflexivity |]. split; [reflexivity |].
  destruct (@captcha_answer_posted platform (portal welcome_portal)
              captcha_page the_page (fresh welcome_portal no_options)
              {| fetched := 0; asked := 1 |} [] 0%N
              (js "https://m.vk.com/login") eq_refl eq_refl)
    as (body & w2 & r & _ & _ & _ & _ & Hv & _).
  exact Hv.
Defined.

Lemma captcha_first_entry_witness :
  captchaValidate (self (fresh captcha_portal no_options)) = None /\
  requests (trace (snd (processCaptchaForm captcha_page the_page
                          (fresh captcha_portal no_options)))) = 1%nat.
Proof.
  split; [reflexivity |].
  exact (proj2 (proj2 (@captcha_first_entry platform (portal captcha_portal)
                         captcha_page the_page
                         (fresh captcha_portal no_options) eq_refl))).
Defined.

Lemma captcha_rejects_before_asking_witness :
  captchaValidate (self captcha_state) = Some 7%N /\
  captchaAttempts
    (self (snd (processCaptchaForm captcha_page the_page captcha_state)))
  = 1%N.
Proof.
  split; [reflexivity |].
  destruct (@captcha_rejects_before_asking platform (portal welcome_portal)
              captcha_page the_page captcha_state 7%N eq_refl)
    as (rest & _ & _ & Hc & _).
  exact Hc.
Defined.

Lemma twoFactor_code_refused_witness :
  twoFactorValidate (self (fresh refusing_portal no_options)) = None /\
  (twoFactorAttempts (self (fresh refusing_portal no_options))
   < TWO_FACTOR_ATTEMPTS)%N /\
  processingTwoFactor (world (fresh refusing_portal no_options)) =
    ({| fetched := 0; asked := 1 |}, inl (ForeignError (js "cancelled"))) /\
  fst (processTwoFactorForm authcheck_page the_page
         (fresh refusing_portal no_options)) =
    Throw (ForeignError (js "cancelled")).
Proof.
  split; [reflexivity |]. split; [reflexivity |]. split; [reflexivity |].
  rewrite (@twoFactor_code_refused platform (portal refusing_portal)
             authcheck_page the_page (fresh refusing_portal no_options)
             {| fetched := 0; asked := 1 |} (ForeignError (js "cancelled"))
             eq_refl eq_refl eq_refl).
  reflexivity.
Defined.

Lemma twoFactor_stale_handle_witness :
  twoFactorValidate (self stale_state) = Some 7%N /\
  (TWO_FACTOR_ATTEMPTS <= twoFactorAttempts (self stale_state) + 1)%N /\
  fst (processTwoFactorForm authcheck_page the_page stale_state) =
    Throw (AuthError
             {| message := js "Failed passed two-factor authentication";
                code := FAILED_PASSED_TWO_FACTOR;
                pageHtml := None |}).
Proof.
  assert (H : (TWO_FACTOR_ATTEMPTS <= twoFactorAttempts (self stale_state) + 1)%N)
    by (apply N.leb_le; reflexivity).
  split; [reflexivity |]. split; [exact H |].
  destruct (@twoFactor_stale_handle platform (portal welcome_portal)
              authcheck_page the_page stale_state 7%N eq_refl)
    as (_ & _ & _ & Hl).
  rewrite (Hl H). reflexivity.
Defined.

Lemma twoFactor_post_success_witness :
  twoFactorValidate (self (fresh welcome_portal no_options)) = None /\
  (twoFactorAttempts (self (fresh welcome_portal no_options))
   < TWO_FACTOR_ATTEMPTS)%N /\
  fst (processTwoFactorForm authcheck_page the_page
         (fresh welcome_portal no_options)) = Normal welcome_page /\
  rejections
    (trace (snd (processTwoFactorForm authcheck_page the_page
                   (fresh welcome_portal no_options)))) = [].
Proof.
  split; [reflexivity |]. split; [reflexivity |].
  rewrite (@twoFactor_post_success platform (portal welcome_portal)
             authcheck_page the_page (fresh welcome_portal no_options)
             [] 0%N
             {| fetched := 0; asked := 1 |} {| fetched := 1; asked := 1 |}
             (js "https://m.vk.com/login") welcome_page
             eq_refl eq_refl eq_refl eq_refl eq_refl).
  split; reflexivity.
Defined.

Lemma twoFactor_url_failure_witness :
  twoFactorValidate (self (fresh welcome_portal no_options)) = None /\
  (twoFactorAttempts (self (fresh welcome_portal no_options))
   < TWO_FACTOR_ATTEMPTS)%N /\
  getFullURL (action (parseFormField formless)) (url authcheck_page) =
    inl (ForeignError (js "TypeError: Invalid URL")) /\
  rejections
    (trace (snd (processTwoFactorForm authcheck_page formless
                   (fresh welcome_portal no_options)))) =
    [(0%N, ForeignError (js "TypeError: Invalid URL"))].
Proof.
  split; [reflexivity |]. split; [reflexivity |]. split; [reflexivity |].
  rewrite (@twoFactor_url_failure platform (portal welcome_portal)
             authcheck_page formless (fresh welcome_portal no_options)
             [] 0%N {| fetched := 0; asked := 1 |}
             (ForeignError (js "TypeError: Invalid URL"))
             eq_refl eq_refl eq_refl eq_refl).
  reflexivity.
Defined.

Lemma run_load_failure_witness :
  includes (url unreadable_page) CALLBACK_BLANK = false /\
  text unreadable_page = inl (ForeignError (js "aborted")) /\
  fst (loop 1 unreadable_page (fresh welcome_portal no_options)) =
    Raised (ForeignError (js "aborted")).
Proof.
  split; [reflexivity |]. split; [reflexivity |].
  rewrite (@run_load_failure platform (portal welcome_portal) 0%nat
             unreadable_page (ForeignError (js "aborted"))
             (fresh welcome_portal no_options) eq_refl eq_refl).
  reflexivity.
Defined.

Lemma run_returns_from_blank_page_witness :
  run_from granted_portal no_options 1 =
    (Returned (@Build_AuthResult platform (Some (Some 42%N))
                 (Some (js "tok123"))), granted_state) /\
  exists last,
    fetched_in (trace granted_state) last /\
    includes (url last) CALLBACK_BLANK = true.
Proof.
  assert (H : run_from granted_portal no_options 1 =
    (Returned (@Build_AuthResult platform (Some (Some 42%N))
                 (Some (js "tok123"))), granted_state)) by reflexivity.
  split; [exact H |].
  destruct (@run_returns_from_blank_page platform (portal granted_portal)
              1%nat entry_url no_options start _ _ H)
    as (last & Hin & Hb & _).
  exists last. split; assumption.
Defined.

Lemma group_name_parts_witness :
  ~ In Collect.dot (js "users") /\ ~ In Collect.dot (js "get") /\
  Collect.group_name (js "users.get") = (js "users", js "get") /\
  Collect.group_name (js "users") = (js "users", js "undefined").
Proof.
  assert (H1 : ~ In Collect.dot (js "users")).
  { intros H. repeat (destruct H as [H | H]; [discriminate H |]). exact H. }
  assert (H2 : ~ In Collect.dot (js "get")).
  { intros H. repeat (destruct H as [H | H]; [discriminate H |]). exact H. }
  split; [exact H1 |]. split; [exact H2 |].
  destruct (group_name_parts (js "users") (js "get") [] H1 H2) as (Ha & _ & Hc).
  split; [exact Ha | exact Hc].
Defined.

(** A table with two methods of one group. *)
Example collect_sample :
  Collect.get (Collect.constructor limits) (js "users") (js "search") =
    Some {| Collect.method := js "users.search"; Collect.limit := 1000;
            Collect.max := 1000 |} /\
  Collect.get (Collect.constructor limits) (js "wall") (js "search") = None.
Proof. vm_compute. split; reflexivity. Qed.

End MoreRuns.
